(** * Digraph analysis of [dust.py]

    A shallow embedding of [analyze_digraphs] from [dust.py]: the hexadecimal
    encoding of the input bytes, the overlapping windows of width two, the
    [Counter] of digraphs, the 16 x 16 matrix of counts with its exclusion and
    threshold filters, logarithmic scaling, and the calls made on the plotting
    context.

    Conventions.
    - A Python [str] is a [string]; a character is a string of length one, as
      in Python, so a digraph is a pair of strings.
    - A Python [int] is a [Z]; list and matrix positions are [nat].
    - [bytes] is a [list byte].
    - The [Counter] (a [dict]) is a [gmap]; [items()] is [map_to_list].
    - The matrix is created with [dtype=float]. Until logarithmic scaling its
      cells only ever hold [0.0] or a count stored by [matrix[i, j] = count],
      which float64 represents exactly (below [2^53]); that matrix is modelled
      by its integer contents. After scaling the cells are values of an
      abstract float type. The numpy functions on floats are the fields of
      the class [Float64].
    - A raised exception is the [Raise] case of [result]. *)

From Stdlib Require Import ZArith Reals Lra.
From Stdlib.Strings Require Import Byte.
From stdpp Require Import base option list strings gmap pretty.

Local Open Scope Z_scope.

(** ** Exceptions *)

Inductive exn : Set :=
| ValueError
| IndexError.

Inductive result (A : Type) : Type :=
| Ok (a : A)
| Raise (e : exn).
Arguments Ok {A} a.
Arguments Raise {A} e.

(** Sequencing: an exception raised by the first computation ends the
    second; written [x ← r; k] below. *)
#[export] Instance result_bind : MBind result := fun A B k r =>
  match r with
  | Ok a => k a
  | Raise e => Raise e
  end.

(** ** Hexadecimal encoding: [''.join(f'{b:02X}' for b in binary_data)] *)

Definition hex_digits : string := "0123456789ABCDEF".

(** The [d]-th character of [hex_digits], as a string of length one. *)
Definition hex_digit (d : nat) : string :=
  match String.get d hex_digits with
  | Some c => String c ""
  | None => ""
  end.

(** Presentation type [X]: the digits of [n] in base 16, upper case, most
    significant first. [fuel] bounds the number of digits after the first;
    the number of bits of [n] is enough. *)
Fixpoint format_X_aux (fuel : nat) (n : N) (acc : string) : string :=
  let acc' := hex_digit (N.to_nat (n mod 16)) +:+ acc in
  match fuel with
  | O => acc'
  | S fuel' => if (n / 16 =? 0)%N then acc' else format_X_aux fuel' (n / 16) acc'
  end.

Definition format_X (n : N) : string :=
  format_X_aux (N.to_nat (N.size n)) n "".

(** Width [2] with fill character [0]. *)
Definition zero_pad (width : nat) (s : string) : string :=
  String.concat "" (replicate (width - String.length s) "0") +:+ s.

Definition format_02X (b : byte) : string :=
  zero_pad 2 (format_X (Byte.to_N b)).

Definition hex_string (binary_data : list byte) : string :=
  String.concat "" (format_02X <$> binary_data).

(** [list(hex_string)]: the characters, each a string of length one. *)
Definition chars (s : string) : list string :=
  (fun c => String c "") <$> String.list_ascii_of_string s.

(** ** Windows: [np.lib.stride_tricks.sliding_window_view(hex_array, 2)]

    The view has one row per position [k <= len - 2], holding the elements at
    [k] and [k + 1]; numpy raises [ValueError] when the window is longer than
    the array. A row is modelled by the pair that [map(tuple, digraphs)] makes
    of it. *)

Abbreviation digraph := (string * string)%type (only parsing).

Fixpoint windows {A : Type} (x : list A) : list (A * A) :=
  match x with
  | a :: t => match t with
              | b :: _ => (a, b) :: windows t
              | [] => []
              end
  | [] => []
  end.

Definition sliding_window_view {A : Type} (x : list A) : result (list (A * A)) :=
  if decide (length x < 2)%nat then Raise ValueError else Ok (windows x).

(** ** Counting: [Counter(map(tuple, digraphs))]

    [Counter] adds one to the entry of every element, starting from [0] for an
    element not seen before. *)

Definition counter_incr (m : gmap digraph Z) (d : digraph) : gmap digraph Z :=
  <[d := default 0 (m !! d) + 1]> m.

Definition Counter (l : list digraph) : gmap digraph Z :=
  foldl counter_incr ∅ l.

Definition count_digraphs (binary_data : list byte) : result (gmap digraph Z) :=
  digraphs ← sliding_window_view (chars (hex_string binary_data));
  Ok (Counter digraphs).

(** ** The matrix of counts *)

Abbreviation matrix A := (list (list A)) (only parsing).

(** [np.zeros((16, 16))] *)
Definition zeros (rows cols : nat) : matrix Z :=
  replicate rows (replicate cols 0).

(** [matrix[i, j]] *)
Definition cell {A : Type} (m : matrix A) (i j : nat) : option A :=
  m !! i ≫= (fun row => row !! j).

(** [matrix[i, j] = v]; numpy raises [IndexError] out of range. *)
Definition matrix_set {A : Type} (m : matrix A) (i j : nat) (v : A) : result (matrix A) :=
  match m !! i with
  | Some row =>
      if decide (j < length row)%nat
      then Ok (<[i := <[j := v]> row]> m)
      else Raise IndexError
  | None => Raise IndexError
  end.

(** [s.index(sub)]: the least position at which [sub] occurs in [s];
    [ValueError] when it does not occur. *)
Definition str_index (s sub : string) : result nat :=
  match String.index 0 sub s with
  | Some i => Ok i
  | None => Raise ValueError
  end.

(** Truth value of an optional list ([None] and [[]] are false) and of an
    optional integer ([None] and [0] are false). *)
Definition truthy_list {A : Type} (o : option (list A)) : bool :=
  match o with
  | Some (_ :: _) => true
  | _ => false
  end.

Definition truthy_int (o : option Z) : bool :=
  match o with
  | Some z => negb (z =? 0)
  | None => false
  end.

(** [exclude_digraphs and (first, second) in exclude_digraphs] *)
Definition excluded (exclude_digraphs : option (list digraph)) (d : digraph) : bool :=
  truthy_list exclude_digraphs && bool_decide (d ∈ default [] exclude_digraphs).

(** [min_threshold and count < min_threshold] *)
Definition below_threshold (min_threshold : option Z) (count : Z) : bool :=
  truthy_int min_threshold && (count <? default 0 min_threshold).

(** The body of the loop over [digraph_counts.items()]. *)
Definition fill_step (exclude_digraphs : option (list digraph))
    (min_threshold : option Z) (m : matrix Z) (item : digraph * Z) : result (matrix Z) :=
  let '((first, second), count) := item in
  if excluded exclude_digraphs (first, second) then Ok m
  else if below_threshold min_threshold count then Ok m
  else
    i ← str_index hex_digits first;
    j ← str_index hex_digits second;
    matrix_set m i j count.

Fixpoint fill_items (exclude_digraphs : option (list digraph))
    (min_threshold : option Z) (items : list (digraph * Z)) (m : matrix Z) : result (matrix Z) :=
  match items with
  | [] => Ok m
  | item :: items' =>
      m' ← fill_step exclude_digraphs min_threshold m item;
      fill_items exclude_digraphs min_threshold items' m'
  end.

Definition fill_matrix (digraph_counts : gmap digraph Z)
    (exclude_digraphs : option (list digraph)) (min_threshold : option Z) : result (matrix Z) :=
  fill_items exclude_digraphs min_threshold (map_to_list digraph_counts) (zeros 16 16).

(** A function applied to every cell. *)
Definition matrix_map {A B : Type} (f : A -> B) (m : matrix A) : matrix B :=
  (fun row : list A => f <$> row) <$> m.

(** [matrix.max()] *)
Definition matrix_max (m : matrix Z) : Z :=
  match concat m with
  | [] => 0
  | c :: cs => foldl Z.max c cs
  end.

(** The sum of all cells. *)
Definition matrix_sum (m : matrix Z) : Z :=
  foldr Z.add 0 (concat m).

(** ** Floating point

    The operations the function applies to float64 values, as numpy and
    Python provide them. *)

Class Float64 (F : Type) : Type := {
  of_int : Z -> F;         (* conversion of an integer *)
  log1p : F -> F;          (* [np.log1p] *)
  expm1 : F -> F;          (* [np.expm1] *)
  fgt : F -> F -> bool;    (* [x > y] *)
  fmax : F -> F -> F;      (* the maximum taken by [ndarray.max] *)
  fhalf : F -> F;          (* [x / 2] *)
  to_int : F -> Z          (* [int(x)], which truncates towards zero *)
}.

(** ** Configuration: the keyword arguments *)

Record config (F : Type) : Type := Config {
  log_scale : bool;
  exclude_digraphs : option (list digraph);
  vmax : option F;
  min_threshold : option Z
}.
Arguments Config {F} _ _ _ _.
Arguments log_scale {F} _.
Arguments exclude_digraphs {F} _.
Arguments vmax {F} _.
Arguments min_threshold {F} _.

(** ** The plotting context: the calls made on [plt], oldest first *)

Inductive plot_call (F : Type) : Type :=
| figure (figsize : Z * Z)
| imshow (m : matrix F) (cmap : string) (vmax : option F)
| colorbar (label : string)
| xticks (positions : list nat) (labels : list string)
| yticks (positions : list nat) (labels : list string)
| xlabel (s : string)
| ylabel (s : string)
| title (s : string)
| text (x y : nat) (s : string) (ha va color : string) (fontsize : Z).
Arguments figure {F} _.
Arguments imshow {F} _ _ _.
Arguments colorbar {F} _.
Arguments xticks {F} _ _.
Arguments yticks {F} _ _.
Arguments xlabel {F} _.
Arguments ylabel {F} _.
Arguments title {F} _.
Arguments text {F} _ _ _ _ _ _ _.

Section analysis.
Context {F : Type} `{Float64 F}.

(** [if log_scale and matrix.max() > 0:
       matrix = np.where(matrix > 0, np.log1p(matrix), 0)] *)
Definition scale_cell (v : Z) : F :=
  if 0 <? v then log1p (of_int v) else of_int 0.

Definition apply_log_scale (log_scale : bool) (m : matrix Z) : matrix F :=
  if log_scale && (0 <? matrix_max m)
  then matrix_map scale_cell m
  else matrix_map of_int m.

(** [matrix.max()] of the scaled matrix. *)
Definition fmatrix_max (m : matrix F) : F :=
  match concat m with
  | [] => of_int 0
  | c :: cs => foldl fmax c cs
  end.

Definition newline : string := String (Ascii.ascii_of_nat 10) "".

Definition title_text (cfg : config F) : string :=
  let t0 := "Hexadecimal Digraph Frequency Heatmap" +:+ newline in
  let t1 := if log_scale cfg then t0 +:+ "(Log Scale) " else t0 in
  let pairs := (fun '(a, b) => a +:+ b) <$> default [] (exclude_digraphs cfg) in
  let t2 := if truthy_list (exclude_digraphs cfg)
            then t1 +:+ "(Excluding " +:+ String.concat ", " pairs +:+ ") "
            else t1 in
  if truthy_int (min_threshold cfg)
  then t2 +:+ "(Min Count: " +:+ pretty (default 0 (min_threshold cfg)) +:+ ")"
  else t2.

(** The annotation of cell [(i, j)] holding [v]: the text is
    [int(np.expm1(v))] under [log_scale] and [int(v)] otherwise. *)
Definition annotation_value (log_scale : bool) (v : F) : Z :=
  to_int (if log_scale then expm1 v else v).

Definition annotate (log_scale : bool) (m : matrix F) (i j : nat) : list (plot_call F) :=
  match cell m i j with
  | Some v =>
      if fgt v (of_int 0)
      then [text j i (pretty (annotation_value log_scale v)) "center" "center"
                 (if fgt v (fhalf (fmatrix_max m)) then "white" else "black") 8]
      else []
  | None => []
  end.

Definition annotations (log_scale : bool) (m : matrix F) : list (plot_call F) :=
  concat ((fun i => concat ((fun j => annotate log_scale m i j) <$> seq 0 16)) <$> seq 0 16).

Definition render (cfg : config F) (m : matrix F) : list (plot_call F) :=
  ([ figure (12, 10);
    imshow m "viridis" (vmax cfg);
    colorbar (if log_scale cfg then "Frequency (log scale)" else "Frequency");
    xticks (seq 0 16) (chars hex_digits);
    yticks (seq 0 16) (chars hex_digits);
    xlabel "Second Digit";
    ylabel "First Digit";
    title (title_text cfg) ]
  ++ annotations (log_scale cfg) m)%list.

(** The matrix before scaling, with the counts it was filled from. *)
Definition count_matrix (binary_data : list byte) (cfg : config F)
  : result (matrix Z * gmap digraph Z) :=
  digraph_counts ← count_digraphs binary_data;
  m ← fill_matrix digraph_counts (exclude_digraphs cfg) (min_threshold cfg);
  Ok (m, digraph_counts).

(** [analyze_digraphs]: the returned pair, and the plotting context after
    the call. *)
Definition analyze_digraphs (binary_data : list byte) (cfg : config F)
    (plt : list (plot_call F))
  : result ((matrix F * gmap digraph Z) * list (plot_call F)) :=
  '(m, digraph_counts) ← count_matrix binary_data cfg;
  let scaled := apply_log_scale (log_scale cfg) m in
  Ok ((scaled, digraph_counts), (plt ++ render cfg scaled)%list).

(** The value returned, whatever was drawn. *)
Definition returned (r : result ((matrix F * gmap digraph Z) * list (plot_call F)))
  : result (matrix F * gmap digraph Z) :=
  '(v, _) ← r; Ok v.

End analysis.

(** The defaults of the keyword arguments. *)
Definition default_config {F : Type} : config F := Config true None None None.

(** ** The script: the [__main__] block

    The script reads the file named by its first argument, analyses it with
    [log_scale=False], [exclude_digraphs=[('0', '0')]] and [min_threshold=5],
    replaces the title, and shows the figure. [argv] is [sys.argv]; [fs] gives
    the content of the files that can be opened and read. *)

(** How a run ends: normally, or with an uncaught exception; [open] and
    [read] fail with [OSError]. *)
Inductive script_result (A : Type) : Type :=
| Completed (a : A)
| Uncaught (e : exn)
| UncaughtOSError.
Arguments Completed {A} a.
Arguments Uncaught {A} e.
Arguments UncaughtOSError {A}.

(** The calls on [plt] during a run: those of [analyze_digraphs] and the two
    of the script alone. *)
Inductive pyplot_call (F : Type) : Type :=
| drawn (c : plot_call F)
| tight_layout
| show.
Arguments drawn {F} c.
Arguments tight_layout {F}.
Arguments show {F}.

Definition script_config {F : Type} : config F :=
  Config false (Some [("0", "0")]) None (Some 5).

Definition script_title (path : string) : string :=
  path +:+ newline +:+ "(Excluding 00, Min Count: 5)".

Definition main {F : Type} `{Float64 F} (argv : list string)
    (fs : string -> option (list byte)) (plt : list (pyplot_call F))
  : script_result (list (pyplot_call F)) :=
  match argv !! 1%nat with
  | None => Uncaught IndexError
  | Some path =>
      match fs path with
      | None => UncaughtOSError
      | Some binary_data =>
          match analyze_digraphs binary_data script_config [] with
          | Raise e => Uncaught e
          | Ok (_, calls) =>
              Completed (plt ++ (drawn <$> calls)
                             ++ [drawn (title (script_title path)); tight_layout; show])
          end
      end
  end.

(** * Vocabulary of the properties *)

(** The two halves of a byte. *)
Definition high_nibble (b : byte) : nat := N.to_nat (Byte.to_N b / 16).

Definition low_nibble (b : byte) : nat := N.to_nat (Byte.to_N b mod 16).

(** The nibbles of the input in the order of the hexadecimal string. *)
Definition nibbles (binary_data : list byte) : list nat :=
  b ← binary_data; [high_nibble b; low_nibble b].

(** A digraph of two hexadecimal digits. *)
Definition hex_digraph (d : digraph) : Prop :=
  exists i j : nat, (i < 16)%nat /\ (j < 16)%nat /\ d = (hex_digit i, hex_digit j).

(** The digraphs of the input: the windows over its hexadecimal string. *)
Definition digraphs_of (binary_data : list byte) : list digraph :=
  windows (chars (hex_string binary_data)).

(** The number of occurrences of [d] in [l]. *)
Definition occurrences (d : digraph) (l : list digraph) : Z :=
  Z.of_nat (length (filter (fun w => w = d) l)).

(** The sum of the counts of a mapping. *)
Definition counts_total (m : gmap digraph Z) : Z :=
  foldr Z.add 0 (map_to_list m).*2.

(** [m] has [rows] rows of [cols] cells. *)
Definition shape {A : Type} (rows cols : nat) (m : matrix A) : Prop :=
  length m = rows /\ Forall (fun row => length row = cols) m.

(** The count of [d] is written to the matrix: [d] is neither excluded nor
    below the threshold. *)
Definition kept (exclude_digraphs : option (list digraph)) (min_threshold : option Z)
    (d : digraph) (count : Z) : bool :=
  negb (excluded exclude_digraphs d) && negb (below_threshold min_threshold count).

(** The 256 digraphs of hexadecimal digits, by row and column. *)
Definition all_hex_digraphs : list digraph :=
  i ← seq 0 16; j ← seq 0 16; [(hex_digit i, hex_digit j)].

(** The float operations are exact on the integers from [0] up to [bound], as
    float64 is up to [2^53]: conversion to a float and back gives the
    integer, and comparison with zero is that of the integers. *)
Definition exact_up_to {F : Type} `{Float64 F} (bound : Z) : Prop :=
  forall z : Z, 0 <= z <= bound ->
    to_int (of_int z) = z /\ fgt (of_int z) (of_int 0) = (0 <? z).

(** Exact real arithmetic as an instance of the float operations. *)
Definition Rtrunc (x : R) : Z :=
  if Rle_dec 0 x then Int_part x else - Int_part (- x).

#[export] Instance real_Float64 : Float64 R := {|
  of_int := IZR;
  log1p := fun x => ln (1 + x);
  expm1 := fun x => (exp x - 1)%R;
  fgt := fun x y => if Rgt_dec x y then true else false;
  fmax := Rmax;
  fhalf := fun x => (x / 2)%R;
  to_int := Rtrunc
|}.

(** * Properties *)

(** ** The hexadecimal string *)

Lemma high_nibble_lt b : (high_nibble b < 16)%nat.
Proof. destruct b; vm_compute; lia. Qed.

Lemma low_nibble_lt b : (low_nibble b < 16)%nat.
Proof. destruct b; vm_compute; lia. Qed.

Lemma format_02X_nibbles b :
  format_02X b = hex_digit (high_nibble b) +:+ hex_digit (low_nibble b).
Proof. destruct b; reflexivity. Qed.

Lemma nibbles_lt data : Forall (fun n => (n < 16)%nat) (nibbles data).
Proof.
  unfold nibbles. induction data as [|b data IH]; [constructor|].
  rewrite bind_cons. cbn.
  apply Forall_cons; split; [apply high_nibble_lt|].
  apply Forall_cons; split; [apply low_nibble_lt|exact IH].
Qed.

Lemma length_nibbles data : length (nibbles data) = (2 * length data)%nat.
Proof.
  unfold nibbles. induction data as [|b data IH]; [done|].
  rewrite bind_cons. cbn in *. lia.
Qed.

Lemma append_empty_r (s : string) : s +:+ "" = s.
Proof.
  induction s as [|c s IH]; [reflexivity|].
  change (String c (s +:+ "") = String c s). by rewrite IH.
Qed.

Lemma string_concat_cons (s : string) (l : list string) :
  String.concat "" (s :: l) = s +:+ String.concat "" l.
Proof.
  destruct l as [|s' l]; [|reflexivity].
  change (s = s +:+ ""). by rewrite append_empty_r.
Qed.

Lemma chars_app (s1 s2 : string) : chars (s1 +:+ s2) = chars s1 ++ chars s2.
Proof.
  unfold chars. induction s1 as [|c s1 IH]; [reflexivity|].
  change (String c s1 +:+ s2) with (String c (s1 +:+ s2)).
  cbn [String.list_ascii_of_string]. rewrite !fmap_cons, IH. reflexivity.
Qed.

Lemma hex_digit_length (n : nat) : (n < 16)%nat -> chars (hex_digit n) = [hex_digit n].
Proof.
  intros Hn. do 16 (destruct n as [|n]; [reflexivity|]). lia.
Qed.

Lemma chars_hex_string data : chars (hex_string data) = hex_digit <$> nibbles data.
Proof.
  unfold hex_string. induction data as [|b data IH]; [done|].
  rewrite fmap_cons, string_concat_cons, chars_app, IH.
  unfold nibbles at 2. rewrite bind_cons. fold (nibbles data).
  rewrite format_02X_nibbles, chars_app.
  rewrite !hex_digit_length by auto using high_nibble_lt, low_nibble_lt.
  done.
Qed.

(** ** Windows *)

Lemma length_windows {A : Type} (x : list A) : length (windows x) = (length x - 1)%nat.
Proof.
  induction x as [|a [|b t] IH]; [done..|].
  change (windows (a :: b :: t)) with ((a, b) :: windows (b :: t)).
  cbn [length] in *. lia.
Qed.

Lemma windows_fmap {A B : Type} (f : A -> B) (x : list A) :
  windows (f <$> x) = prod_map f f <$> windows x.
Proof.
  induction x as [|a [|b t] IH]; [done..|].
  change (windows (a :: b :: t)) with ((a, b) :: windows (b :: t)).
  rewrite !fmap_cons.
  change (windows (f a :: f b :: (f <$> t))) with ((f a, f b) :: windows (f <$> (b :: t))).
  by rewrite IH.
Qed.

Lemma windows_Forall {A : Type} (P : A -> Prop) (x : list A) :
  Forall P x -> Forall (fun w => P w.1 /\ P w.2) (windows x).
Proof.
  induction x as [|a [|b t] IH]; intros Hx; [constructor..|].
  change (windows (a :: b :: t)) with ((a, b) :: windows (b :: t)).
  inversion Hx as [|? ? Ha Ht]; subst. pose proof Ht as Ht'.
  inversion Ht' as [|? ? Hb _]; subst.
  apply Forall_cons; split; [done|]. by apply IH.
Qed.

(** ** Hexadecimal digits and their positions *)

Lemma str_index_hex_digit (i : nat) :
  (i < 16)%nat -> str_index hex_digits (hex_digit i) = Ok i.
Proof. intros Hi. do 16 (destruct i as [|i]; [reflexivity|]). lia. Qed.

Lemma hex_digit_inj (i j : nat) :
  (i < 16)%nat -> (j < 16)%nat -> hex_digit i = hex_digit j -> i = j.
Proof.
  intros Hi Hj Heq.
  pose proof (str_index_hex_digit i Hi) as H1.
  pose proof (str_index_hex_digit j Hj) as H2.
  rewrite Heq in H1. congruence.
Qed.

Lemma digraphs_of_hex data : Forall hex_digraph (digraphs_of data).
Proof.
  unfold digraphs_of. rewrite chars_hex_string, windows_fmap.
  apply Forall_fmap.
  eapply Forall_impl; [apply (windows_Forall _ _ (nibbles_lt data))|].
  intros [i j] [Hi Hj]. by exists i, j.
Qed.

Lemma length_digraphs_of data :
  length (digraphs_of data) = (2 * length data - 1)%nat.
Proof.
  unfold digraphs_of.
  by rewrite length_windows, chars_hex_string, length_fmap, length_nibbles.
Qed.

Lemma count_digraphs_nil : count_digraphs [] = Raise ValueError.
Proof. reflexivity. Qed.

Lemma count_digraphs_cons b data :
  count_digraphs (b :: data) = Ok (Counter (digraphs_of (b :: data))).
Proof.
  unfold count_digraphs, sliding_window_view.
  rewrite chars_hex_string, length_fmap, length_nibbles.
  destruct (decide _) as [Hlt|_]; [cbn [length] in Hlt; lia|].
  by rewrite <- chars_hex_string.
Qed.

(** ** The counter *)

Lemma occurrences_nonneg d l : 0 <= occurrences d l.
Proof. unfold occurrences. lia. Qed.

Lemma occurrences_cons d w l :
  occurrences d (w :: l) = (if decide (w = d) then 1 else 0) + occurrences d l.
Proof.
  unfold occurrences. rewrite filter_cons.
  destruct (decide (w = d)); cbn [length]; lia.
Qed.

Lemma occurrences_pos d l : d ∈ l <-> 0 < occurrences d l.
Proof.
  induction l as [|w l IH].
  - split; [by intros ?%elem_of_nil|by cbv].
  - rewrite occurrences_cons, elem_of_cons.
    pose proof (occurrences_nonneg d l).
    destruct (decide (w = d)) as [->|Hne]; [split; [lia|by left]|].
    rewrite <- IH. split; [intros [?|?]; [congruence|done]|by right].
Qed.

Lemma foldl_counter_incr_lookup (l : list digraph) (m : gmap digraph Z) (d : digraph) :
  foldl counter_incr m l !! d =
    if decide (occurrences d l = 0) then m !! d
    else Some (default 0 (m !! d) + occurrences d l).
Proof.
  revert m. induction l as [|w l IH]; intros m; [done|].
  cbn [foldl]. rewrite IH, occurrences_cons. unfold counter_incr.
  pose proof (occurrences_nonneg d l).
  destruct (decide (w = d)) as [->|Hne].
  - rewrite lookup_insert_eq. cbn [default]. unfold Datatypes.id.
    destruct (decide (occurrences d l = 0)) as [H0|H0];
      destruct (decide (1 + occurrences d l = 0)); try lia; f_equal; lia.
  - rewrite lookup_insert_ne by done.
    destruct (decide (occurrences d l = 0)) as [H0|H0];
      destruct (decide (0 + occurrences d l = 0)); try lia; done.
Qed.

(** The counter holds, for every digraph that occurs, the number of its
    occurrences, and nothing else. *)
Lemma Counter_lookup (l : list digraph) (d : digraph) :
  Counter l !! d = if decide (d ∈ l) then Some (occurrences d l) else None.
Proof.
  unfold Counter. rewrite foldl_counter_incr_lookup, lookup_empty. cbn [default].
  pose proof (occurrences_pos d l) as Hpos.
  destruct (decide (d ∈ l)) as [Hin|Hnin]; destruct (decide _) as [H0|H0];
    try done.
  - apply Hpos in Hin. lia.
  - pose proof (occurrences_nonneg d l). exfalso. apply Hnin, Hpos. lia.
Qed.

Lemma Counter_positive (l : list digraph) (d : digraph) (c : Z) :
  Counter l !! d = Some c -> 0 < c.
Proof.
  rewrite Counter_lookup. destruct (decide (d ∈ l)) as [Hin|]; [|done].
  intros [= <-]. by apply occurrences_pos.
Qed.

Lemma Counter_elem_of (l : list digraph) (d : digraph) (c : Z) :
  Counter l !! d = Some c -> d ∈ l.
Proof. rewrite Counter_lookup. by destruct (decide (d ∈ l)). Qed.

Lemma sum_permutation (l k : list Z) : l ≡ₚ k -> foldr Z.add 0 l = foldr Z.add 0 k.
Proof. induction 1; cbn [foldr]; lia. Qed.

Lemma counts_total_insert_fresh (m : gmap digraph Z) (d : digraph) (c : Z) :
  m !! d = None -> counts_total (<[d := c]> m) = c + counts_total m.
Proof.
  intros Hd. unfold counts_total.
  rewrite (sum_permutation _ (c :: (map_to_list m).*2)); [done|].
  by rewrite map_to_list_insert.
Qed.

Lemma counts_total_incr (m : gmap digraph Z) (d : digraph) :
  counts_total (counter_incr m d) = counts_total m + 1.
Proof.
  unfold counter_incr. destruct (m !! d) as [c|] eqn:Hd; cbn [default].
  - rewrite <- (insert_delete_id m d c Hd) at 2.
    rewrite <- insert_delete_eq.
    rewrite !counts_total_insert_fresh by apply lookup_delete_eq.
    unfold Datatypes.id. lia.
  - rewrite counts_total_insert_fresh by done. lia.
Qed.

Lemma counts_total_Counter (l : list digraph) :
  counts_total (Counter l) = Z.of_nat (length l).
Proof.
  unfold Counter. induction l as [|w l IH] using rev_ind; [done|].
  rewrite foldl_snoc, counts_total_incr, IH, length_app. cbn [length]. lia.
Qed.

(** ** Matrices *)

Lemma shape_zeros rows cols : shape rows cols (zeros rows cols).
Proof.
  split; [apply length_replicate|].
  apply Forall_replicate, length_replicate.
Qed.

Lemma cell_zeros rows cols i j :
  (i < rows)%nat -> (j < cols)%nat -> cell (zeros rows cols) i j = Some 0.
Proof.
  intros Hi Hj. unfold cell, zeros.
  rewrite lookup_replicate_2 by done. cbn. by rewrite lookup_replicate_2.
Qed.

Lemma shape_row {A : Type} rows cols (m : matrix A) i row :
  shape rows cols m -> m !! i = Some row -> length row = cols.
Proof. intros [_ Hrows] Hi. by apply (Forall_lookup_1 _ _ _ _ Hrows Hi). Qed.

Lemma cell_is_Some {A : Type} rows cols (m : matrix A) i j :
  shape rows cols m -> (i < rows)%nat -> (j < cols)%nat -> is_Some (cell m i j).
Proof.
  intros Hm Hi Hj. unfold cell.
  destruct (lookup_lt_is_Some_2 m i) as [row Hrow]; [by rewrite (proj1 Hm)|].
  rewrite Hrow. cbn. apply lookup_lt_is_Some_2.
  by rewrite (shape_row _ _ _ _ _ Hm Hrow).
Qed.

Lemma sum_app (l k : list Z) :
  foldr Z.add 0 (l ++ k) = foldr Z.add 0 l + foldr Z.add 0 k.
Proof. induction l as [|x l IH]; cbn [foldr app]; lia. Qed.

Lemma sum_insert (l : list Z) (j : nat) (v old : Z) :
  l !! j = Some old -> foldr Z.add 0 (<[j := v]> l) = foldr Z.add 0 l - old + v.
Proof.
  revert j. induction l as [|x l IH]; intros [|j] Hj; try done.
  - injection Hj as ->. cbn. lia.
  - cbn in Hj. cbn [foldr]. change (<[S j:=v]> (x :: l)) with (x :: <[j:=v]> l).
    cbn [foldr]. rewrite (IH j Hj). lia.
Qed.

Lemma matrix_sum_rows (m : matrix Z) :
  matrix_sum m = foldr Z.add 0 (foldr Z.add 0 <$> m).
Proof.
  unfold matrix_sum. induction m as [|row m IH]; [done|].
  rewrite fmap_cons. cbn [concat foldr]. by rewrite sum_app, IH.
Qed.

Lemma matrix_set_spec {A : Type} rows cols (m : matrix A) i j v :
  shape rows cols m -> (i < rows)%nat -> (j < cols)%nat ->
  exists m', matrix_set m i j v = Ok m' /\ shape rows cols m' /\
    forall i' j', cell m' i' j' =
      if decide (i' = i /\ j' = j) then Some v else cell m i' j'.
Proof.
  intros Hm Hi Hj. unfold matrix_set.
  destruct (lookup_lt_is_Some_2 m i) as [row Hrow]; [by rewrite (proj1 Hm)|].
  pose proof (shape_row _ _ _ _ _ Hm Hrow) as Hlen.
  rewrite Hrow. destruct (decide (j < length row)%nat) as [_|Hge]; [|lia].
  eexists; split; [done|]. split.
  - split; [by rewrite length_insert; apply Hm|].
    apply Forall_insert; [apply Hm|by rewrite length_insert].
  - intros i' j'. unfold cell.
    destruct (decide (i' = i)) as [->|Hi'].
    + rewrite list_lookup_insert_eq by (by rewrite (proj1 Hm)). cbn.
      destruct (decide (j' = j)) as [->|Hj'].
      * rewrite list_lookup_insert_eq by lia.
        by destruct (decide _) as [_|Hn]; [|destruct Hn].
      * rewrite list_lookup_insert_ne by done. rewrite Hrow. cbn.
        by destruct (decide _) as [[_ ?]|_].
    + rewrite list_lookup_insert_ne by done.
      by destruct (decide _) as [[? _]|_].
Qed.

Lemma matrix_set_sum rows cols (m m' : matrix Z) i j v old :
  shape rows cols m -> matrix_set m i j v = Ok m' -> cell m i j = Some old ->
  matrix_sum m' = matrix_sum m - old + v.
Proof.
  intros Hm Hset Hold. unfold matrix_set, cell in *.
  destruct (m !! i) as [row|] eqn:Hrow; [|done]. cbn in Hold.
  destruct (decide _); [|done]. injection Hset as <-.
  rewrite !matrix_sum_rows, list_fmap_insert.
  rewrite (sum_insert _ i _ (foldr Z.add 0 row)) by (by rewrite list_lookup_fmap, Hrow).
  rewrite (sum_insert row j v old Hold). lia.
Qed.

(** ** Filling the matrix *)

Lemma fill_step_spec ex thr (m : matrix Z) (i j : nat) (c : Z) :
  shape 16 16 m -> (i < 16)%nat -> (j < 16)%nat ->
  exists m', fill_step ex thr m ((hex_digit i, hex_digit j), c) = Ok m' /\
    shape 16 16 m' /\
    (forall i' j', cell m' i' j' =
       if decide (i' = i /\ j' = j)
       then (if kept ex thr (hex_digit i, hex_digit j) c then Some c else cell m i' j')
       else cell m i' j') /\
    matrix_sum m' = matrix_sum m +
      (if kept ex thr (hex_digit i, hex_digit j) c then c - default 0 (cell m i j) else 0).
Proof.
  intros Hm Hi Hj. unfold fill_step, kept.
  destruct (excluded ex _) eqn:Hex; cbn [negb andb].
  { exists m. split; [done|]. split; [done|].
    split; [by intros; destruct (decide _)|lia]. }
  destruct (below_threshold thr c) eqn:Hthr; cbn [negb].
  { exists m. split; [done|]. split; [done|].
    split; [by intros; destruct (decide _)|lia]. }
  rewrite !str_index_hex_digit by done. cbn [mbind result_bind].
  destruct (matrix_set_spec 16 16 m i j c Hm Hi Hj) as (m' & Hset & Hm' & Hcell).
  exists m'. split; [done|]. split; [done|]. split; [done|].
  destruct (cell_is_Some 16 16 m i j Hm Hi Hj) as [old Hold].
  rewrite (matrix_set_sum 16 16 m m' i j c old Hm Hset Hold), Hold. cbn. lia.
Qed.

(** The cell of a pair of digits after the loop: the count of the pair if
    it is among the items and is kept, and the cell before the loop if not. *)
Lemma fill_items_spec ex thr (items : list (digraph * Z)) (m0 : matrix Z) :
  NoDup items.*1 -> Forall (fun it => hex_digraph it.1) items -> shape 16 16 m0 ->
  exists m, fill_items ex thr items m0 = Ok m /\ shape 16 16 m /\
    forall i j, (i < 16)%nat -> (j < 16)%nat ->
      cell m i j =
        match (list_to_map items : gmap digraph Z) !! (hex_digit i, hex_digit j) with
        | Some c => if kept ex thr (hex_digit i, hex_digit j) c then Some c else cell m0 i j
        | None => cell m0 i j
        end.
Proof.
  revert m0. induction items as [|[d c] items IH]; intros m0 Hnd Hhex Hm0.
  { exists m0. split; [done|]. split; [done|]. intros i j _ _.
    by rewrite list_to_map_nil, lookup_empty. }
  rewrite fmap_cons in Hnd. apply NoDup_cons in Hnd as [Hd Hnd].
  apply Forall_cons in Hhex as [(i0 & j0 & Hi0 & Hj0 & Hd0) Hhex].
  cbn [fst] in Hd0, Hd. subst d.
  destruct (fill_step_spec ex thr m0 i0 j0 c Hm0 Hi0 Hj0)
    as (m1 & Hstep & Hm1 & Hcell1 & _).
  destruct (IH m1 Hnd Hhex Hm1) as (m & Hfill & Hm & Hcell).
  exists m. cbn [fill_items]. rewrite Hstep. cbn [mbind result_bind].
  split; [done|]. split; [done|]. intros i j Hi Hj.
  rewrite (Hcell i j Hi Hj), Hcell1, list_to_map_cons.
  destruct (decide (i = i0 /\ j = j0)) as [[-> ->]|Hne].
  - rewrite lookup_insert_eq.
    by rewrite (not_elem_of_list_to_map_1 items _ Hd).
  - rewrite lookup_insert_ne; [done|].
    intros [= Heq1 Heq2]. apply Hne.
    split; symmetry; by apply hex_digit_inj.
Qed.

(** Without filters every count lands in a cell of its own, so the loop adds
    the counts of the items to the sum of the matrix. *)
Lemma fill_items_sum (items : list (digraph * Z)) (m0 : matrix Z) :
  NoDup items.*1 -> Forall (fun it => hex_digraph it.1) items -> shape 16 16 m0 ->
  (forall i j, (i < 16)%nat -> (j < 16)%nat ->
     (hex_digit i, hex_digit j) ∈ items.*1 -> cell m0 i j = Some 0) ->
  exists m, fill_items None None items m0 = Ok m /\
    matrix_sum m = matrix_sum m0 + foldr Z.add 0 items.*2.
Proof.
  revert m0. induction items as [|[d c] items IH]; intros m0 Hnd Hhex Hm0 Hzero.
  { exists m0. split; [done|]. cbn. lia. }
  rewrite fmap_cons in Hnd. apply NoDup_cons in Hnd as [Hd Hnd].
  apply Forall_cons in Hhex as [(i0 & j0 & Hi0 & Hj0 & Hd0) Hhex].
  cbn [fst] in Hd0, Hd. subst d.
  destruct (fill_step_spec None None m0 i0 j0 c Hm0 Hi0 Hj0)
    as (m1 & Hstep & Hm1 & Hcell1 & Hsum1).
  destruct (IH m1 Hnd Hhex Hm1) as (m & Hfill & Hsum).
  { intros i j Hi Hj Hin. rewrite Hcell1.
    destruct (decide (i = i0 /\ j = j0)) as [[-> ->]|Hne]; [done|].
    apply Hzero; [done..|]. rewrite fmap_cons. by apply elem_of_cons; right. }
  exists m. cbn [fill_items]. rewrite Hstep. cbn [mbind result_bind].
  split; [done|]. rewrite Hsum, Hsum1.
  rewrite (Hzero i0 j0 Hi0 Hj0) by (rewrite fmap_cons; apply elem_of_cons; by left).
  rewrite !fmap_cons. cbn. lia.
Qed.

Lemma excluded_true ex (d : digraph) :
  excluded ex d = true <-> d ∈ default [] ex.
Proof.
  unfold excluded. destruct ex as [[|d' ex]|]; cbn.
  - split; [done|by intros ?%elem_of_nil].
  - by rewrite bool_decide_eq_true.
  - split; [done|by intros ?%elem_of_nil].
Qed.

Lemma below_threshold_true thr (c : Z) :
  below_threshold thr c = true <-> exists t, thr = Some t /\ t <> 0 /\ c < t.
Proof.
  unfold below_threshold, truthy_int. destruct thr as [t|]; cbn.
  - rewrite andb_true_iff, negb_true_iff, Z.eqb_neq, Z.ltb_lt.
    split; [intros []; by exists t|by intros (? & [= <-] & ? & ?)].
  - split; [done|by intros (? & ? & _)].
Qed.

Lemma below_threshold_positive thr (c : Z) :
  0 < c -> below_threshold thr c = true <-> exists t, thr = Some t /\ c < t.
Proof.
  intros Hc. rewrite below_threshold_true.
  split; [intros (t & ? & _ & ?); by exists t|].
  intros (t & ? & ?). exists t. repeat split; [done|lia|done].
Qed.

Lemma kept_excluded ex thr (d : digraph) (c : Z) :
  d ∈ default [] ex -> kept ex thr d c = false.
Proof. intros Hin. unfold kept. by rewrite (proj2 (excluded_true ex d) Hin). Qed.

Lemma kept_not_excluded ex thr (d : digraph) (c : Z) :
  d ∉ default [] ex -> kept ex thr d c = negb (below_threshold thr c).
Proof.
  intros Hnin. unfold kept. destruct (excluded ex d) eqn:Hex; [|done].
  by apply excluded_true in Hex.
Qed.

Lemma below_threshold_lt (t c : Z) :
  0 < c -> c < t -> below_threshold (Some t) c = true.
Proof. intros Hc Hlt. apply below_threshold_positive; [done|]. by exists t. Qed.

Lemma below_threshold_ge (t c : Z) :
  t <= c -> below_threshold (Some t) c = false.
Proof.
  intros Hge. unfold below_threshold. cbn.
  apply andb_false_iff. right. by apply Z.ltb_ge.
Qed.

Lemma map_to_list_hex (counts : gmap digraph Z) :
  map_Forall (fun d _ => hex_digraph d) counts ->
  Forall (fun it => hex_digraph it.1) (map_to_list counts).
Proof.
  intros Hhex. apply Forall_forall. intros [d c] Hin.
  apply elem_of_map_to_list in Hin. by apply (Hhex d c).
Qed.

Lemma fill_matrix_spec (counts : gmap digraph Z) ex thr :
  map_Forall (fun d _ => hex_digraph d) counts ->
  exists m, fill_matrix counts ex thr = Ok m /\ shape 16 16 m /\
    forall i j, (i < 16)%nat -> (j < 16)%nat ->
      cell m i j =
        Some match counts !! (hex_digit i, hex_digit j) with
             | Some c => if kept ex thr (hex_digit i, hex_digit j) c then c else 0
             | None => 0
             end.
Proof.
  intros Hhex. unfold fill_matrix.
  destruct (fill_items_spec ex thr (map_to_list counts) (zeros 16 16))
    as (m & Hfill & Hm & Hcell);
    [apply NoDup_fst_map_to_list|by apply map_to_list_hex|apply shape_zeros|].
  exists m. split; [done|]. split; [done|]. intros i j Hi Hj.
  rewrite (Hcell i j Hi Hj), list_to_map_to_list, cell_zeros by done.
  destruct (counts !! _) as [c|]; [|done]. by destruct (kept _ _ _ _).
Qed.

Lemma matrix_sum_zeros : matrix_sum (zeros 16 16) = 0.
Proof. reflexivity. Qed.

Lemma fill_matrix_sum (counts : gmap digraph Z) :
  map_Forall (fun d _ => hex_digraph d) counts ->
  exists m, fill_matrix counts None None = Ok m /\ matrix_sum m = counts_total counts.
Proof.
  intros Hhex. unfold fill_matrix.
  destruct (fill_items_sum (map_to_list counts) (zeros 16 16)) as (m & Hfill & Hsum);
    [apply NoDup_fst_map_to_list|by apply map_to_list_hex|apply shape_zeros| |].
  { intros. by apply cell_zeros. }
  exists m. split; [done|]. rewrite Hsum, matrix_sum_zeros. unfold counts_total. lia.
Qed.

Lemma Counter_hex (l : list digraph) :
  Forall hex_digraph l -> map_Forall (fun d _ => hex_digraph d) (Counter l).
Proof.
  intros Hl d c Hd. apply Counter_elem_of in Hd.
  by apply (proj1 (Forall_forall _ _) Hl).
Qed.

(** The loop does not look at a threshold that is zero or negative when all
    counts are positive. *)
Lemma fill_items_nonpositive_threshold ex (t : Z) (items : list (digraph * Z)) (m : matrix Z) :
  t <= 0 -> Forall (fun it => 0 < it.2) items ->
  fill_items ex (Some t) items m = fill_items ex None items m.
Proof.
  intros Ht. revert m. induction items as [|[[a b] c] items IH]; intros m Hpos; [done|].
  apply Forall_cons in Hpos as [Hc Hpos]. cbn [snd] in Hc.
  cbn [fill_items]. unfold fill_step.
  assert (below_threshold (Some t) c = false) as ->.
  { unfold below_threshold. cbn. apply andb_false_iff. right. apply Z.ltb_ge. lia. }
  assert (below_threshold None c = false) as -> by done.
  destruct (excluded ex (a, b)); cbn [mbind result_bind]; [by apply IH|].
  destruct (str_index hex_digits a) as [i|]; cbn [mbind result_bind]; [|done].
  destruct (str_index hex_digits b) as [j|]; cbn [mbind result_bind]; [|done].
  destruct (matrix_set m i j c); cbn [mbind result_bind]; [by apply IH|done].
Qed.

Lemma cell_matrix_map {A B : Type} (f : A -> B) (m : matrix A) i j :
  cell (matrix_map f m) i j = f <$> cell m i j.
Proof.
  unfold cell, matrix_map. rewrite list_lookup_fmap.
  destruct (m !! i) as [row|]; cbn; [|done]. by rewrite list_lookup_fmap.
Qed.

(** ** The analysis *)

Section analysis_properties.
Context {F : Type} `{Float64 F}.

Lemma returned_analyze (data : list byte) (cfg : config F) (plt : list (plot_call F)) :
  returned (analyze_digraphs data cfg plt) =
    '(m, counts) ← count_matrix data cfg;
    Ok (apply_log_scale (log_scale cfg) m, counts).
Proof.
  unfold returned, analyze_digraphs.
  by destruct (count_matrix data cfg) as [[m counts]|e].
Qed.

Lemma count_matrix_nil (cfg : config F) : count_matrix [] cfg = Raise ValueError.
Proof. reflexivity. Qed.

(** For a non-empty input the matrix before scaling exists, the mapping is
    the counter of all digraphs, and a cell holds the count of its digraph
    when that count is kept. *)
Lemma count_matrix_cons (b : byte) (data : list byte) (cfg : config F) :
  exists m,
    count_matrix (b :: data) cfg = Ok (m, Counter (digraphs_of (b :: data))) /\
    forall i j, (i < 16)%nat -> (j < 16)%nat ->
      cell m i j =
        Some match Counter (digraphs_of (b :: data)) !! (hex_digit i, hex_digit j) with
             | Some c =>
                 if kept (exclude_digraphs cfg) (min_threshold cfg)
                      (hex_digit i, hex_digit j) c
                 then c else 0
             | None => 0
             end.
Proof.
  unfold count_matrix. rewrite count_digraphs_cons. cbn [mbind result_bind].
  destruct (fill_matrix_spec (Counter (digraphs_of (b :: data)))
              (exclude_digraphs cfg) (min_threshold cfg)) as (m & Hfill & _ & Hcell);
    [apply Counter_hex, digraphs_of_hex|].
  exists m. by rewrite Hfill.
Qed.

Lemma elem_of_concat_2 {A : Type} (x : A) (l : list A) (ls : list (list A)) :
  x ∈ l -> l ∈ ls -> x ∈ concat ls.
Proof.
  intros Hx Hl. induction ls as [|l0 ls IH]; [by apply elem_of_nil in Hl|].
  cbn [concat]. apply elem_of_app.
  apply elem_of_cons in Hl as [->|Hl]; [by left|right; by apply IH].
Qed.

Lemma elem_of_annotations_2 (ls : bool) (m : matrix F) (i j : nat) (c : plot_call F) :
  (i < 16)%nat -> (j < 16)%nat -> c ∈ annotate ls m i j -> c ∈ annotations ls m.
Proof.
  intros Hi Hj Hc. unfold annotations.
  apply (elem_of_concat_2 _ (concat ((fun j => annotate ls m i j) <$> seq 0 16))).
  - apply (elem_of_concat_2 _ (annotate ls m i j)); [done|].
    apply list_elem_of_fmap. exists j. split; [done|]. apply elem_of_seq. lia.
  - apply list_elem_of_fmap. exists i. split; [done|]. apply elem_of_seq. lia.
Qed.

(** The one place [vmax] goes to. *)
Lemma render_imshow (cfg : config F) (m : matrix F) :
  render cfg m !! 1%nat = Some (imshow m "viridis" (vmax cfg)).
Proof. reflexivity. Qed.

Lemma scale_cell_zero : scale_cell 0 = of_int 0.
Proof. reflexivity. Qed.

Lemma scale_cell_positive (v : Z) : 0 < v -> scale_cell v = log1p (of_int v).
Proof. intros Hv. unfold scale_cell. by rewrite (proj2 (Z.ltb_lt 0 v) Hv). Qed.

Lemma apply_log_scale_zero (ls : bool) (m : matrix Z) (i j : nat) :
  cell m i j = Some 0 -> cell (apply_log_scale ls m) i j = Some (of_int 0).
Proof.
  intros Hc. unfold apply_log_scale.
  destruct (ls && (0 <? matrix_max m)); by rewrite cell_matrix_map, Hc.
Qed.

(** *** Empty input *)

(** C1. On the empty byte sequence [analyze_digraphs] raises [ValueError],
    whatever the configuration and the state of the plotting context: the
    hexadecimal string of no bytes is empty, and [sliding_window_view] refuses
    a window of width two over an array of length zero. No all-zero grid and
    no empty count mapping is returned, as the specification has it. *)
Theorem analyze_digraphs_empty_raises (cfg : config F) (plt : list (plot_call F)) :
  analyze_digraphs [] cfg plt = Raise ValueError.
Proof. reflexivity. Qed.

(** *** The sum of the grid *)

(** C2. For a non-empty input of [N] bytes, without exclusions and without a
    threshold, the matrix before scaling sums to [2 * N - 1], the number of
    windows of width two over the hexadecimal string; with [log_scale] off
    that matrix, converted cell by cell, is the one returned. *)
Theorem unfiltered_grid_sum (data : list byte) (ls : bool) (vm : option F) :
  data <> [] ->
  exists (m : list (list Z)) (counts : gmap (string * string) Z),
    count_matrix data (Config ls None vm None) = Ok (m, counts) /\
    matrix_sum m = 2 * Z.of_nat (length data) - 1 /\
    Z.of_nat (length (digraphs_of data)) = 2 * Z.of_nat (length data) - 1 /\
    forall plt,
      returned (analyze_digraphs data (Config false None vm None) plt) =
        Ok (matrix_map of_int m, counts).
Proof.
  intros Hdata. destruct data as [|b data]; [done|].
  pose proof (length_digraphs_of (b :: data)) as Hlen. cbn [length] in Hlen.
  destruct (fill_matrix_sum (Counter (digraphs_of (b :: data)))) as (m & Hfill & Hsum);
    [apply Counter_hex, digraphs_of_hex|].
  assert (forall ls', count_matrix (b :: data) (Config ls' None vm None) =
            Ok (m, Counter (digraphs_of (b :: data)))) as Hcm.
  { intros ls'. unfold count_matrix. rewrite count_digraphs_cons.
    cbn [mbind result_bind exclude_digraphs min_threshold]. by rewrite Hfill. }
  exists m, (Counter (digraphs_of (b :: data))).
  split; [apply Hcm|]. split; [|split].
  - rewrite Hsum, counts_total_Counter, Hlen. cbn [length]. lia.
  - rewrite Hlen. cbn [length]. lia.
  - intros plt. by rewrite returned_analyze, Hcm.
Qed.

(** *** The cells of the grid *)

(** C3. Before scaling, the cell in row [i] and column [j] holds the count
    that the returned mapping gives the digraph of the [i]-th and [j]-th
    hexadecimal digits, and [0] when that digraph is in [exclude_digraphs],
    when its count is below [min_threshold], or when it does not occur. For a
    non-empty input the function returns, the matrix being scaled from this
    one. *)
Theorem grid_cells_from_counts (data : list byte) (cfg : config F) :
  data <> [] ->
  exists (m : list (list Z)) (counts : gmap (string * string) Z),
    count_matrix data cfg = Ok (m, counts) /\
    (forall plt, returned (analyze_digraphs data cfg plt) =
                   Ok (apply_log_scale (log_scale cfg) m, counts)) /\
    forall i j : nat, (i < 16)%nat -> (j < 16)%nat ->
      exists v : Z, cell m i j = Some v /\
        ((hex_digit i, hex_digit j) ∈ default [] (exclude_digraphs cfg) -> v = 0) /\
        (forall c t, counts !! (hex_digit i, hex_digit j) = Some c ->
                     min_threshold cfg = Some t -> c < t -> v = 0) /\
        (counts !! (hex_digit i, hex_digit j) = None -> v = 0) /\
        (forall c, counts !! (hex_digit i, hex_digit j) = Some c ->
                   (hex_digit i, hex_digit j) ∉ default [] (exclude_digraphs cfg) ->
                   (forall t, min_threshold cfg = Some t -> t <= c) ->
                   v = c).
Proof.
  intros Hdata. destruct data as [|b data]; [done|].
  destruct (count_matrix_cons b data cfg) as (m & Hcm & Hcell).
  set (counts := Counter (digraphs_of (b :: data))) in *.
  exists m, counts. split; [done|]. split.
  { intros plt. by rewrite returned_analyze, Hcm. }
  intros i j Hi Hj. eexists. split; [by apply Hcell|].
  unfold kept. destruct (counts !! (hex_digit i, hex_digit j)) as [c|] eqn:Hc.
  - pose proof (Counter_positive _ _ _ Hc) as Hpos.
    destruct (excluded _ _) eqn:Hex; cbn [negb andb].
    + apply excluded_true in Hex.
      split; [done|]. split; [done|]. split; [done|].
      intros c' _ Hnot. by destruct Hnot.
    + destruct (below_threshold _ _) eqn:Hthr; cbn [negb].
      * apply (below_threshold_positive _ _ Hpos) in Hthr as (t & Ht & Hlt).
        split; [done|]. split; [done|]. split; [done|].
        intros c' [= <-] _ Hge. specialize (Hge t Ht). lia.
      * split; [|split; [|split]].
        -- intros Hin. apply excluded_true in Hin. congruence.
        -- intros c' t [= <-] Ht Hlt.
           assert (below_threshold (min_threshold cfg) c = true) as Hb
             by (apply (below_threshold_positive _ _ Hpos); by exists t).
           congruence.
        -- done.
        -- by intros c' [= <-] _ _.
  - split; [done|]. split; [done|]. split; [done|]. by intros c' [=].
Qed.

(** *** The label of a scaled cell *)


(** *** Logarithmic scaling *)

(** The scaling step on any matrix. *)
Lemma apply_log_scale_rule (ls : bool) (m : list (list Z)) :
  (ls = true -> 0 < matrix_max m ->
   forall (i j : nat) (v : Z), cell m i j = Some v ->
     (0 < v -> cell (apply_log_scale ls m) i j = Some (log1p (of_int v))) /\
     (v = 0 -> cell (apply_log_scale ls m) i j = Some (of_int 0))) /\
  (ls = false \/ matrix_max m <= 0 ->
   apply_log_scale ls m = matrix_map of_int m).
Proof.
  unfold apply_log_scale. split.
  - intros -> Hmax i j v Hv.
    rewrite (proj2 (Z.ltb_lt 0 _) Hmax). cbn [andb].
    rewrite cell_matrix_map, Hv. cbn.
    split; [intros Hpos; by rewrite scale_cell_positive|by intros ->].
  - intros [->|Hmax]; [done|].
    rewrite (proj2 (Z.ltb_ge 0 _) Hmax). by rewrite andb_false_r.
Qed.

(** C5. The grid [analyze_digraphs] returns is the matrix of counts after
    the scaling step: with [log_scale] on and a positive maximum, a positive
    cell [v] has become [log1p v], the float logarithm of [1 + v], and a zero
    cell is still zero; with [log_scale] off, or a maximum that is not
    positive, every cell has kept its value. *)
Theorem log_scaling_rule (data : list byte) (cfg : config F) (plt : list (plot_call F)) :
  data <> [] ->
  exists (m : list (list Z)) (scaled : list (list F))
         (counts : gmap (string * string) Z),
    count_matrix data cfg = Ok (m, counts) /\
    analyze_digraphs data cfg plt = Ok ((scaled, counts), plt ++ render cfg scaled) /\
    (log_scale cfg = true -> 0 < matrix_max m ->
     forall (i j : nat) (v : Z), cell m i j = Some v ->
       (0 < v -> cell scaled i j = Some (log1p (of_int v))) /\
       (v = 0 -> cell scaled i j = Some (of_int 0))) /\
    (log_scale cfg = false \/ matrix_max m <= 0 -> scaled = matrix_map of_int m).
Proof.
  intros Hdata. destruct data as [|b data]; [done|].
  destruct (count_matrix_cons b data cfg) as (m & Hcm & _).
  exists m, (apply_log_scale (log_scale cfg) m), (Counter (digraphs_of (b :: data))).
  split; [done|]. split.
  { unfold analyze_digraphs. by rewrite Hcm. }
  apply apply_log_scale_rule.
Qed.

(** *** The encoding of a byte *)

(** C6. A byte is written as two characters of [0123456789ABCDEF], the one
    of its high nibble first. For the single byte [AB] the string is [AB] and
    the returned mapping has the one digraph [('A', 'B')] with count [1]. The
    returned grid has [0] everywhere but in row [10], column [11], where it
    has [1] with [log_scale] off and [log1p 1] with [log_scale] on, as it is by
    default. *)
Theorem byte_encoding_high_nibble_first :
  (forall b : byte,
     format_02X b = hex_digit (N.to_nat (Byte.to_N b / 16))
                    +:+ hex_digit (N.to_nat (Byte.to_N b mod 16))) /\
  hex_string [xab] = "AB" /\
  digraphs_of [xab] = [("A", "B")] /\
  forall (ls : bool) (vm : option F) (plt : list (plot_call F)),
    exists grid : list (list F),
      analyze_digraphs [xab] (Config ls None vm None) plt =
        Ok ((grid, {[ ("A", "B") := 1 ]}), plt ++ render (Config ls None vm None) grid) /\
      cell grid 10 11 = Some (if ls then log1p (of_int 1) else of_int 1) /\
      forall i j : nat, (i < 16)%nat -> (j < 16)%nat -> (i, j) <> (10, 11)%nat ->
        cell grid i j = Some (of_int 0).
Proof.
  split; [apply format_02X_nibbles|].
  split; [reflexivity|]. split; [reflexivity|].
  intros ls vm plt.
  exists (apply_log_scale ls (<[10%nat := <[11%nat := 1]> (replicate 16 0)]> (zeros 16 16))).
  split; [reflexivity|]. split; [by destruct ls|].
  intros i j Hi Hj Hne.
  destruct ls;
    do 16 (destruct i as [|i];
           [do 16 (destruct j as [|j]; [first [reflexivity|by destruct Hne]|]); lia|]);
    lia.
Qed.

(** *** Exclusion *)

(** C7. The cell of a digraph listed in [exclude_digraphs] is [0] in the
    returned grid, while the returned mapping is the counter of all digraphs
    of the input and gives every digraph the number of its occurrences. For
    the two bytes [00 00] with [('0', '0')] excluded, the cell in row [0],
    column [0] is [0] and the mapping gives [('0', '0')] the count [3]. *)
Theorem excluded_digraphs_left_at_zero :
  (forall (data : list byte) (cfg : config F) (plt : list (plot_call F)) (i j : nat),
     data <> [] -> (i < 16)%nat -> (j < 16)%nat ->
     (hex_digit i, hex_digit j) ∈ default [] (exclude_digraphs cfg) ->
     exists (m : list (list F)) (counts : gmap (string * string) Z)
            (plt' : list (plot_call F)),
       analyze_digraphs data cfg plt = Ok ((m, counts), plt') /\
       cell m i j = Some (of_int 0) /\
       counts = Counter (digraphs_of data) /\
       forall d, counts !! d =
         if decide (d ∈ digraphs_of data)
         then Some (occurrences d (digraphs_of data)) else None) /\
  (forall (ls : bool) (ex : list (string * string)) (vm : option F)
          (thr : option Z) (plt : list (plot_call F)),
     ("0", "0") ∈ ex ->
     hex_string [x00; x00] = "0000" /\
     exists (m : list (list F)) (counts : gmap (string * string) Z)
            (plt' : list (plot_call F)),
       analyze_digraphs [x00; x00] (Config ls (Some ex) vm thr) plt
         = Ok ((m, counts), plt') /\
       cell m 0 0 = Some (of_int 0) /\
       counts !! ("0", "0") = Some 3).
Proof.
  assert (forall (data : list byte) (cfg : config F) (plt : list (plot_call F)) (i j : nat),
     data <> [] -> (i < 16)%nat -> (j < 16)%nat ->
     (hex_digit i, hex_digit j) ∈ default [] (exclude_digraphs cfg) ->
     exists (m : list (list F)) (plt' : list (plot_call F)),
       analyze_digraphs data cfg plt = Ok ((m, Counter (digraphs_of data)), plt') /\
       cell m i j = Some (of_int 0)) as Hgen.
  { intros data cfg plt i j Hdata Hi Hj Hin.
    destruct data as [|b data]; [done|].
    destruct (count_matrix_cons b data cfg) as (m & Hcm & Hcell).
    specialize (Hcell i j Hi Hj).
    assert (cell m i j = Some 0) as Hzero.
    { rewrite Hcell. destruct (Counter _ !! _) as [c|]; [|done].
      by rewrite kept_excluded. }
    unfold analyze_digraphs. rewrite Hcm. cbn [mbind result_bind].
    eexists _, _. split; [done|]. by apply apply_log_scale_zero. }
  split.
  - intros data cfg plt i j Hdata Hi Hj Hin.
    destruct (Hgen data cfg plt i j Hdata Hi Hj Hin) as (m & plt' & Hrun & Hcell).
    exists m, (Counter (digraphs_of data)), plt'.
    split; [done|]. split; [done|]. split; [done|]. intros d. apply Counter_lookup.
  - intros ls ex vm thr plt Hin. split; [reflexivity|].
    destruct (Hgen [x00; x00] (Config ls (Some ex) vm thr) plt 0%nat 0%nat)
      as (m & plt' & Hrun & Hcell); [done|lia|lia|done|].
    exists m, (Counter (digraphs_of [x00; x00])), plt'.
    split; [exact Hrun|]. split; [exact Hcell|]. reflexivity.
Qed.

(** *** The threshold *)

(** C8. With [min_threshold] set to [t], a digraph that occurs and is not
    excluded has cell [0] when its count is less than [t] and its count when
    not, so the cells left at [0] are those of the counts less than [t]; the
    returned mapping is the counter of all digraphs, threshold or not. For
    the counts [{('A','B'): 4, ('C','D'): 10}] and threshold [5] the cell of
    [('A','B')] is [0] and the cell of [('C','D')] is [10], which scaling
    turns into [log1p 10]; the mapping holds both pairs. *)
Theorem threshold_filters_smaller_counts :
  (forall (data : list byte) (cfg : config F) (t : Z),
     data <> [] -> min_threshold cfg = Some t ->
     exists m : list (list Z),
       count_matrix data cfg = Ok (m, Counter (digraphs_of data)) /\
       (forall plt, returned (analyze_digraphs data cfg plt) =
          Ok (apply_log_scale (log_scale cfg) m, Counter (digraphs_of data))) /\
       forall (i j : nat) (c : Z), (i < 16)%nat -> (j < 16)%nat ->
         Counter (digraphs_of data) !! (hex_digit i, hex_digit j) = Some c ->
         (hex_digit i, hex_digit j) ∉ default [] (exclude_digraphs cfg) ->
         0 < c /\
         (c < t -> cell m i j = Some 0) /\
         (t <= c -> cell m i j = Some c)) /\
  (let counts : gmap (string * string) Z := {[ ("A", "B") := 4; ("C", "D") := 10 ]} in
   exists m : list (list Z),
     fill_matrix counts None (Some 5) = Ok m /\
     cell m 10 11 = Some 0 /\
     cell m 12 13 = Some 10 /\
     cell (apply_log_scale false m) 10 11 = Some (of_int 0) /\
     cell (apply_log_scale false m) 12 13 = Some (of_int 10) /\
     cell (apply_log_scale true m) 10 11 = Some (of_int 0) /\
     cell (apply_log_scale true m) 12 13 = Some (log1p (of_int 10)) /\
     counts !! ("A", "B") = Some 4 /\
     counts !! ("C", "D") = Some 10).
Proof.
  split.
  - intros data cfg t Hdata Ht.
    destruct data as [|b data]; [done|].
    destruct (count_matrix_cons b data cfg) as (m & Hcm & Hcell).
    exists m. split; [done|]. split.
    { intros plt. by rewrite returned_analyze, Hcm. }
    intros i j c Hi Hj Hc Hnex.
    pose proof (Counter_positive _ _ _ Hc) as Hpos.
    rewrite (Hcell i j Hi Hj), Hc, kept_not_excluded, Ht by done.
    split; [done|]. split.
    + intros Hlt. by rewrite below_threshold_lt.
    + intros Hge. by rewrite below_threshold_ge.
  - exists (<[12%nat := <[13%nat := 10]> (replicate 16 0)]> (zeros 16 16)).
    repeat split; reflexivity.
Qed.

(** C9. A threshold that is zero or negative filters nothing: the call
    returns what it returns without a threshold. *)
Theorem nonpositive_threshold_no_filter (data : list byte) (ls : bool)
    (ex : option (list (string * string))) (vm : option F) (t : Z)
    (plt : list (plot_call F)) :
  t <= 0 ->
  returned (analyze_digraphs data (Config ls ex vm (Some t)) plt) =
  returned (analyze_digraphs data (Config ls ex vm None) plt).
Proof.
  intros Ht. rewrite !returned_analyze. unfold count_matrix.
  destruct data as [|b data]; [done|].
  rewrite count_digraphs_cons.
  cbn [mbind result_bind exclude_digraphs min_threshold log_scale].
  unfold fill_matrix. rewrite fill_items_nonpositive_threshold; [done..|].
  apply Forall_forall. intros [d c] Hin. apply elem_of_map_to_list in Hin.
  by apply (Counter_positive _ _ _ Hin).
Qed.

(** *** The colour scale *)

(** C10. [vmax] reaches [imshow] and nothing else: two calls that differ
    only in [vmax] return the same grid and the same mapping. *)
Theorem vmax_does_not_affect_returned (data : list byte) (ls : bool)
    (ex : option (list (string * string))) (thr : option Z) (vmax1 vmax2 : option F)
    (plt : list (plot_call F)) :
  returned (analyze_digraphs data (Config ls ex vmax1 thr) plt) =
  returned (analyze_digraphs data (Config ls ex vmax2 thr) plt).
Proof. by rewrite !returned_analyze. Qed.

End analysis_properties.

(** ** The theorems at concrete inputs, over the reals *)

Lemma unfiltered_grid_sum_witness :
  [xab; x00; xff] <> [] /\
  exists (m : list (list Z)) (counts : gmap (string * string) Z),
    count_matrix [xab; x00; xff] (Config true None (None : option R) None)
      = Ok (m, counts) /\
    matrix_sum m = 2 * Z.of_nat (length [xab; x00; xff]) - 1 /\
    Z.of_nat (length (digraphs_of [xab; x00; xff]))
      = 2 * Z.of_nat (length [xab; x00; xff]) - 1 /\
    forall plt,
      returned (analyze_digraphs [xab; x00; xff]
                  (Config false None (None : option R) None) plt) =
        Ok (matrix_map of_int m, counts).
Proof.
  split; [discriminate|].
  apply (unfiltered_grid_sum [xab; x00; xff] true None). discriminate.
Defined.

Lemma grid_cells_from_counts_witness :
  [xab; xab] <> [] /\
  exists (m : list (list Z)) (counts : gmap (string * string) Z),
    count_matrix [xab; xab]
      (Config true (Some [("B", "A")]) (None : option R) (Some 2)) = Ok (m, counts) /\
    (forall plt,
       returned (analyze_digraphs [xab; xab]
                   (Config true (Some [("B", "A")]) (None : option R) (Some 2)) plt) =
         Ok (apply_log_scale true m, counts)) /\
    forall i j : nat, (i < 16)%nat -> (j < 16)%nat ->
      exists v : Z, cell m i j = Some v /\
        ((hex_digit i, hex_digit j) ∈ [("B", "A")] -> v = 0) /\
        (forall c t, counts !! (hex_digit i, hex_digit j) = Some c ->
                     Some 2 = Some t -> c < t -> v = 0) /\
        (counts !! (hex_digit i, hex_digit j) = None -> v = 0) /\
        (forall c, counts !! (hex_digit i, hex_digit j) = Some c ->
                   (hex_digit i, hex_digit j) ∉ [("B", "A")] ->
                   (forall t, Some 2 = Some t -> t <= c) ->
                   v = c).
Proof.
  split; [discriminate|].
  apply (grid_cells_from_counts [xab; xab]
           (Config true (Some [("B", "A")]) (None : option R) (Some 2))).
  discriminate.
Defined.

Lemma log_scaling_rule_witness :
  [xab; xab] <> [] /\
  exists (m : list (list Z)) (scaled : list (list R))
         (counts : gmap (string * string) Z),
    count_matrix [xab; xab] (Config true None (None : option R) None) = Ok (m, counts) /\
    analyze_digraphs [xab; xab] (Config true None (None : option R) None) [] =
      Ok ((scaled, counts), [] ++ render (Config true None None None) scaled) /\
    (true = true -> 0 < matrix_max m ->
     forall (i j : nat) (v : Z), cell m i j = Some v ->
       (0 < v -> cell scaled i j = Some (ln (1 + IZR v))) /\
       (v = 0 -> cell scaled i j = Some 0%R)) /\
    (true = false \/ matrix_max m <= 0 -> scaled = matrix_map IZR m) /\
    0 < matrix_max m /\ cell m 10 11 = Some 2 /\
    cell scaled 10 11 = Some (ln (1 + 2))%R /\ cell scaled 0 0 = Some 0%R.
Proof.
  split; [discriminate|].
  destruct (log_scaling_rule (F := R) [xab; xab] (Config true None None None) [])
    as (m & scaled & counts & Hcm & Hrun & Hon & Hoff); [discriminate|].
  exists m, scaled, counts.
  split; [exact Hcm|]. split; [exact Hrun|]. split; [exact Hon|]. split; [exact Hoff|].
  assert (m = <[10%nat := <[11%nat := 2]> (replicate 16 0)]>
               (<[11%nat := <[10%nat := 1]> (replicate 16 0)]> (zeros 16 16))) as Hm.
  { assert (count_matrix [xab; xab] (Config true None (None : option R) None) =
            Ok (<[10%nat := <[11%nat := 2]> (replicate 16 0)]>
                  (<[11%nat := <[10%nat := 1]> (replicate 16 0)]> (zeros 16 16)),
                Counter (digraphs_of [xab; xab]))) as Hcm' by reflexivity.
    rewrite Hcm in Hcm'. by injection Hcm' as -> _. }
  assert (0 < matrix_max m) as Hmax by (rewrite Hm; reflexivity).
  assert (cell m 10 11 = Some 2) as H2 by (rewrite Hm; reflexivity).
  assert (cell m 0 0 = Some 0) as H0 by (rewrite Hm; reflexivity).
  split; [exact Hmax|]. split; [exact H2|]. split.
  - apply (Hon eq_refl Hmax 10%nat 11%nat 2 H2). reflexivity.
  - apply (Hon eq_refl Hmax 0%nat 0%nat 0 H0). reflexivity.
Defined.

(** The grid of the single byte [AB] under the default configuration: row
    [10], column [11] holds [ln 2], not [1]. *)
Lemma byte_AB_default_cell_is_not_one :
  exists (grid : list (list R)) (counts : gmap (string * string) Z)
         (plt' : list (plot_call R)),
    analyze_digraphs [xab] default_config [] = Ok ((grid, counts), plt') /\
    cell grid 10 11 = Some (ln (1 + 1)) /\
    cell grid 10 11 <> Some 1%R.
Proof.
  eexists _, _, _. split; [reflexivity|]. split; [reflexivity|].
  intros Heq. change (Some (ln (1 + 1)) = Some 1%R) in Heq. injection Heq as Heq.
  assert (ln (1 + 1) < ln (exp 1))%R as Hlt.
  { apply ln_increasing; [lra|]. apply exp_ineq1. lra. }
  rewrite ln_exp in Hlt. lra.
Qed.

Lemma excluded_digraphs_left_at_zero_witness :
  [x00; x00] <> [] /\ (0 < 16)%nat /\
  (hex_digit 0, hex_digit 0) ∈ [("0", "0")] /\
  exists (m : list (list R)) (counts : gmap (string * string) Z)
         (plt' : list (plot_call R)),
    analyze_digraphs [x00; x00] (Config true (Some [("0", "0")]) None None) []
      = Ok ((m, counts), plt') /\
    cell m 0 0 = Some 0%R /\
    counts = Counter (digraphs_of [x00; x00]) /\
    forall d, counts !! d =
      if decide (d ∈ digraphs_of [x00; x00])
      then Some (occurrences d (digraphs_of [x00; x00])) else None.
Proof.
  assert ((hex_digit 0, hex_digit 0) ∈ [("0", "0")]) as Hin
    by (apply elem_of_cons; left; reflexivity).
  split; [discriminate|]. split; [lia|]. split; [exact Hin|].
  refine (proj1 excluded_digraphs_left_at_zero [x00; x00]
            (Config true (Some [("0", "0")]) (None : option R) None) [] 0%nat 0%nat
            _ _ _ Hin);
    [discriminate|lia|lia].
Defined.

Lemma threshold_filters_smaller_counts_witness :
  [xab; xab] <> [] /\ Some 2 = Some 2 /\
  exists m : list (list Z),
    count_matrix [xab; xab] (Config true None (None : option R) (Some 2))
      = Ok (m, Counter (digraphs_of [xab; xab])) /\
    (forall plt,
       returned (analyze_digraphs [xab; xab]
                   (Config true None (None : option R) (Some 2)) plt) =
         Ok (apply_log_scale true m, Counter (digraphs_of [xab; xab]))) /\
    forall (i j : nat) (c : Z), (i < 16)%nat -> (j < 16)%nat ->
      Counter (digraphs_of [xab; xab]) !! (hex_digit i, hex_digit j) = Some c ->
      (hex_digit i, hex_digit j) ∉ [] ->
      0 < c /\
      (c < 2 -> cell m i j = Some 0) /\
      (2 <= c -> cell m i j = Some c).
Proof.
  split; [discriminate|]. split; [reflexivity|].
  refine (proj1 threshold_filters_smaller_counts [xab; xab]
            (Config true None (None : option R) (Some 2)) 2 _ _);
    [discriminate|reflexivity].
Defined.

Lemma nonpositive_threshold_no_filter_witness :
  -3 <= 0 /\
  returned (analyze_digraphs [xab; x00]
              (Config true None (None : option R) (Some (-3))) []) =
  returned (analyze_digraphs [xab; x00]
              (Config true None (None : option R) None) []).
Proof.
  split; [lia|].
  apply (nonpositive_threshold_no_filter [xab; x00] true None None (-3) []). lia.
Defined.

(** * Further properties of the code *)

(** ** The hexadecimal string *)

Lemma length_chars (s : string) : length (chars s) = String.length s.
Proof.
  unfold chars. rewrite length_fmap.
  induction s as [|c s IH]; cbn; [done|]. by rewrite IH.
Qed.

Lemma byte_of_nibbles (b : byte) :
  Byte.to_N b = (16 * N.of_nat (high_nibble b) + N.of_nat (low_nibble b))%N.
Proof.
  unfold high_nibble, low_nibble. rewrite !N2Nat.id.
  apply N.div_mod. discriminate.
Qed.

Lemma byte_eq_of_nibbles (b1 b2 : byte) :
  high_nibble b1 = high_nibble b2 -> low_nibble b1 = low_nibble b2 -> b1 = b2.
Proof.
  intros Hh Hl.
  assert (Byte.to_N b1 = Byte.to_N b2) as Heq
    by (rewrite !byte_of_nibbles; congruence).
  pose proof (Byte.of_to_N b1) as H1. pose proof (Byte.of_to_N b2) as H2.
  rewrite Heq in H1. congruence.
Qed.

Lemma nibbles_inj (d1 d2 : list byte) : nibbles d1 = nibbles d2 -> d1 = d2.
Proof.
  unfold nibbles. revert d2.
  induction d1 as [|b1 d1 IH]; intros [|b2 d2]; rewrite ?bind_cons; try done.
  cbn. intros [= Hh Hl Ht]. f_equal; [by apply byte_eq_of_nibbles|by apply IH].
Qed.

Lemma fmap_hex_digit_inj (l1 l2 : list nat) :
  Forall (fun n => (n < 16)%nat) l1 -> Forall (fun n => (n < 16)%nat) l2 ->
  hex_digit <$> l1 = hex_digit <$> l2 -> l1 = l2.
Proof.
  intros H1. revert l2.
  induction H1 as [|n l1 Hn _ IH]; intros [|k l2] H2; try done.
  apply Forall_cons in H2 as [Hk H2]. rewrite !fmap_cons. intros [= Hd Ht].
  f_equal; [by apply hex_digit_inj|by apply IH].
Qed.

(** X1. The hexadecimal string of [N] bytes has [2 * N] characters, all of
    them among [0123456789ABCDEF]. *)
Theorem hex_string_length_and_alphabet (data : list byte) :
  String.length (hex_string data) = (2 * length data)%nat /\
  Forall (fun c => exists i : nat, (i < 16)%nat /\ c = hex_digit i /\
                                   str_index hex_digits c = Ok i)
         (chars (hex_string data)).
Proof.
  split.
  - by rewrite <- length_chars, chars_hex_string, length_fmap, length_nibbles.
  - rewrite chars_hex_string. apply Forall_fmap.
    eapply Forall_impl; [apply nibbles_lt|].
    intros n Hn. exists n. by rewrite str_index_hex_digit.
Qed.

(** X2. The encoding loses nothing: two byte sequences with the same
    hexadecimal string are the same. *)
Theorem hex_string_injective (d1 d2 : list byte) :
  hex_string d1 = hex_string d2 -> d1 = d2.
Proof.
  intros Heq. apply nibbles_inj.
  apply fmap_hex_digit_inj; [apply nibbles_lt..|].
  by rewrite <- !chars_hex_string, Heq.
Qed.

(** ** Windows *)

Lemma windows_lookup {A : Type} (x : list A) (k : nat) (a b : A) :
  windows x !! k = Some (a, b) <-> x !! k = Some a /\ x !! S k = Some b.
Proof.
  revert k. induction x as [|a0 [|b0 t] IH]; intros k.
  - destruct k; cbn; (split; [done|by intros [? _]]).
  - destruct k as [|[|k]]; cbn; (split; [done|by intros [_ ?]]).
  - change (windows (a0 :: b0 :: t)) with ((a0, b0) :: windows (b0 :: t)).
    destruct k as [|k]; [|apply IH]. cbn. split.
    + by intros [= -> ->].
    + by intros [[= ->] [= ->]].
Qed.

(** X3. [sliding_window_view] raises [ValueError] on fewer than two elements;
    otherwise it gives one window less than there are elements, the [k]-th
    window holding the elements at [k] and [k + 1]. *)
Theorem sliding_window_view_spec {A : Type} (x : list A) :
  ((length x < 2)%nat -> sliding_window_view x = Raise ValueError) /\
  ((2 <= length x)%nat ->
   exists ws, sliding_window_view x = Ok ws /\
     length ws = (length x - 1)%nat /\
     forall (k : nat) (a b : A),
       ws !! k = Some (a, b) <-> x !! k = Some a /\ x !! S k = Some b).
Proof.
  unfold sliding_window_view. split; intros Hlen.
  - by destruct (decide _).
  - destruct (decide _); [lia|]. exists (windows x).
    split; [done|]. split; [apply length_windows|]. intros. apply windows_lookup.
Qed.

(** ** The counter *)

Lemma occurrences_le_length (d : digraph) (l : list digraph) :
  occurrences d l <= Z.of_nat (length l).
Proof.
  unfold occurrences. pose proof (length_filter (fun w => w = d) l). lia.
Qed.

Lemma occurrences_permutation (d : digraph) (l k : list digraph) :
  l ≡ₚ k -> occurrences d l = occurrences d k.
Proof. intros Hp. unfold occurrences. by rewrite Hp. Qed.

Lemma Counter_entry_bounds (l : list digraph) (d : digraph) (c : Z) :
  Counter l !! d = Some c -> 1 <= c <= Z.of_nat (length l).
Proof.
  intros Hc. pose proof (Counter_positive _ _ _ Hc) as Hpos.
  rewrite Counter_lookup in Hc. destruct (decide _); [|done].
  injection Hc as <-. pose proof (occurrences_le_length d l). lia.
Qed.

(** X4. The counter counts exactly: a digraph has an entry if and only if
    it occurs, the entry is the number of its occurrences, which is at least
    one and at most the number of windows, and the counts add up to the number
    of windows. *)
Theorem Counter_counts_exactly (l : list (string * string)) :
  (forall d, Counter l !! d =
     if decide (d ∈ l) then Some (occurrences d l) else None) /\
  (forall d c, Counter l !! d = Some c -> 1 <= c <= Z.of_nat (length l)) /\
  counts_total (Counter l) = Z.of_nat (length l).
Proof.
  split; [apply Counter_lookup|]. split; [|apply counts_total_Counter].
  intros d c. apply Counter_entry_bounds.
Qed.

(** X5. The counter does not depend on the order of the windows. *)
Theorem Counter_permutation (l k : list (string * string)) :
  l ≡ₚ k -> Counter l = Counter k.
Proof.
  intros Hp. apply map_eq. intros d. rewrite !Counter_lookup.
  rewrite (occurrences_permutation d l k Hp).
  destruct (decide (d ∈ l)) as [Hl|Hl]; destruct (decide (d ∈ k)) as [Hk|Hk];
    try done; exfalso.
  - apply Hk. by rewrite <- Hp.
  - apply Hl. by rewrite Hp.
Qed.

Lemma NoDup_all_hex_digraphs : NoDup all_hex_digraphs.
Proof. apply (bool_decide_unpack (NoDup all_hex_digraphs)). by vm_compute. Qed.

Lemma elem_of_all_hex_digraphs (d : digraph) :
  hex_digraph d -> d ∈ all_hex_digraphs.
Proof.
  intros (i & j & Hi & Hj & ->). unfold all_hex_digraphs.
  apply list_elem_of_bind. exists i. split; [|apply elem_of_seq; lia].
  apply list_elem_of_bind. exists j. split; [|apply elem_of_seq; lia].
  by apply list_elem_of_singleton.
Qed.

(** X6. The mapping of an input has at most 256 entries, and no more entries
    than there are windows, however long the input. *)
Theorem digraph_counts_size (data : list byte) :
  (size (Counter (digraphs_of data)) <= 256)%nat /\
  (size (Counter (digraphs_of data)) <= 2 * length data - 1)%nat.
Proof.
  set (counts := Counter (digraphs_of data)).
  rewrite <- length_digraphs_of.
  rewrite <- (length_map_to_list counts), <- (length_fmap fst).
  pose proof (NoDup_fst_map_to_list counts) as Hnd.
  assert (forall d, d ∈ (map_to_list counts).*1 -> d ∈ digraphs_of data) as Hin.
  { intros d Hd. apply list_elem_of_fmap in Hd as ([d' c] & -> & Hd).
    apply elem_of_map_to_list in Hd. by apply (Counter_elem_of _ _ _ Hd). }
  split.
  - change 256%nat with (length all_hex_digraphs).
    apply submseteq_length, NoDup_submseteq; [done|].
    intros d Hd. apply elem_of_all_hex_digraphs.
    apply (proj1 (Forall_forall _ _) (digraphs_of_hex data)). by apply Hin.
  - by apply submseteq_length, NoDup_submseteq.
Qed.

(** ** Filling the matrix, whatever the filters *)

(** The loop sees the exclusion list and the threshold only through the
    two tests. *)
Lemma fill_items_ext ex1 ex2 thr1 thr2 (items : list (digraph * Z)) (m : matrix Z) :
  (forall d, excluded ex1 d = excluded ex2 d) ->
  Forall (fun it => below_threshold thr1 it.2 = below_threshold thr2 it.2) items ->
  fill_items ex1 thr1 items m = fill_items ex2 thr2 items m.
Proof.
  intros Hex. revert m. induction items as [|[[a b] c] items IH]; intros m Hthr; [done|].
  apply Forall_cons in Hthr as [Hc Hthr]. cbn [snd] in Hc.
  cbn [fill_items]. unfold fill_step. rewrite Hex, Hc.
  destruct (fill_step ex2 thr2 m ((a, b), c)) as [m'|e] eqn:Hstep;
    unfold fill_step in Hstep; rewrite Hstep; cbn [mbind result_bind]; [by apply IH|done].
Qed.

(** With filters the loop adds the counts that are kept. *)
Lemma fill_items_sum_kept ex thr (items : list (digraph * Z)) (m0 : matrix Z) :
  NoDup items.*1 -> Forall (fun it => hex_digraph it.1) items -> shape 16 16 m0 ->
  (forall i j, (i < 16)%nat -> (j < 16)%nat ->
     (hex_digit i, hex_digit j) ∈ items.*1 -> cell m0 i j = Some 0) ->
  exists m, fill_items ex thr items m0 = Ok m /\
    matrix_sum m = matrix_sum m0 +
      foldr Z.add 0 ((fun it => if kept ex thr it.1 it.2 then it.2 else 0) <$> items).
Proof.
  revert m0. induction items as [|[d c] items IH]; intros m0 Hnd Hhex Hm0 Hzero.
  { exists m0. split; [done|]. cbn. lia. }
  rewrite fmap_cons in Hnd. apply NoDup_cons in Hnd as [Hd Hnd].
  apply Forall_cons in Hhex as [(i0 & j0 & Hi0 & Hj0 & Hd0) Hhex].
  cbn [fst] in Hd0, Hd. subst d.
  destruct (fill_step_spec ex thr m0 i0 j0 c Hm0 Hi0 Hj0)
    as (m1 & Hstep & Hm1 & Hcell1 & Hsum1).
  destruct (IH m1 Hnd Hhex Hm1) as (m & Hfill & Hsum).
  { intros i j Hi Hj Hin. rewrite Hcell1.
    assert (cell m0 i j = Some 0) as H0
      by (apply Hzero; [done..|]; rewrite fmap_cons; by apply elem_of_cons; right).
    destruct (decide (i = i0 /\ j = j0)) as [[-> ->]|Hne]; [done|done]. }
  exists m. cbn [fill_items]. rewrite Hstep. cbn [mbind result_bind].
  split; [done|]. rewrite Hsum, Hsum1.
  rewrite (Hzero i0 j0 Hi0 Hj0) by (rewrite fmap_cons; apply elem_of_cons; by left).
  rewrite !fmap_cons. cbn [foldr fst snd default from_option Datatypes.id].
  destruct (kept ex thr _ c); lia.
Qed.

Lemma sum_kept_bounds ex thr (items : list (digraph * Z)) :
  Forall (fun it => 0 < it.2) items ->
  0 <= foldr Z.add 0 ((fun it => if kept ex thr it.1 it.2 then it.2 else 0) <$> items)
    <= foldr Z.add 0 items.*2.
Proof.
  induction 1 as [|[d c] items Hc _ IH]; [done|].
  rewrite !fmap_cons. cbn [foldr fst snd] in *. destruct (kept ex thr d c); lia.
Qed.

Lemma shape_matrix_map {A B : Type} (f : A -> B) rows cols (m : matrix A) :
  shape rows cols m -> shape rows cols (matrix_map f m).
Proof.
  intros [Hlen Hrows]. unfold matrix_map. split; [by rewrite length_fmap|].
  apply Forall_fmap. eapply Forall_impl; [exact Hrows|].
  intros row Hrow. cbn. by rewrite length_fmap.
Qed.

Lemma cell_Some_lt {A : Type} rows cols (m : matrix A) i j v :
  shape rows cols m -> cell m i j = Some v -> (i < rows)%nat /\ (j < cols)%nat.
Proof.
  intros Hm Hc. unfold cell in Hc.
  destruct (m !! i) as [row|] eqn:Hrow; [|done]. cbn in Hc.
  pose proof (lookup_lt_Some _ _ _ Hrow) as Hi.
  pose proof (lookup_lt_Some _ _ _ Hc) as Hj.
  rewrite (shape_row _ _ _ _ _ Hm Hrow) in Hj. rewrite (proj1 Hm) in Hi. done.
Qed.

Section further_analysis_properties.
Context {F : Type} `{Float64 F}.

Lemma count_matrix_shape_sum (b : byte) (data : list byte) (cfg : config F) :
  exists m,
    count_matrix (b :: data) cfg = Ok (m, Counter (digraphs_of (b :: data))) /\
    shape 16 16 m /\
    0 <= matrix_sum m <= Z.of_nat (length (digraphs_of (b :: data))).
Proof.
  set (counts := Counter (digraphs_of (b :: data))).
  assert (map_Forall (fun d _ => hex_digraph d) counts) as Hhex
    by apply Counter_hex, digraphs_of_hex.
  destruct (fill_matrix_spec counts (exclude_digraphs cfg) (min_threshold cfg) Hhex)
    as (m & Hfill & Hm & _).
  destruct (fill_items_sum_kept (exclude_digraphs cfg) (min_threshold cfg)
              (map_to_list counts) (zeros 16 16)) as (m' & Hfill' & Hsum);
    [apply NoDup_fst_map_to_list|by apply map_to_list_hex|apply shape_zeros| |].
  { intros. by apply cell_zeros. }
  unfold fill_matrix in Hfill. rewrite Hfill in Hfill'. injection Hfill' as <-.
  exists m. split; [|split; [done|]].
  - unfold count_matrix. rewrite count_digraphs_cons. cbn [mbind result_bind].
    fold counts. unfold fill_matrix. by rewrite Hfill.
  - rewrite Hsum, matrix_sum_zeros, <- counts_total_Counter. fold counts.
    unfold counts_total.
    pose proof (sum_kept_bounds (exclude_digraphs cfg) (min_threshold cfg)
                  (map_to_list counts)) as Hb.
    apply Hb. apply Forall_forall. intros [d c] Hin.
    apply elem_of_map_to_list in Hin. by apply (Counter_positive _ _ _ Hin).
Qed.

(** X7. The empty input is the only one on which [analyze_digraphs] raises:
    on every other input it returns, with the counter of all digraphs as the
    mapping, and leaves the earlier calls on the plotting context in place,
    followed by those of the rendering. No position is ever out of range and
    no digit is ever missing from [0123456789ABCDEF]. *)
Theorem analyze_digraphs_raises_only_on_empty (data : list byte) (cfg : config F)
    (plt : list (plot_call F)) :
  (data = [] /\ analyze_digraphs data cfg plt = Raise ValueError) \/
  (data <> [] /\
   exists m : list (list F),
     analyze_digraphs data cfg plt =
       Ok ((m, Counter (digraphs_of data)), plt ++ render cfg m)).
Proof.
  destruct data as [|b data]; [by left|]. right. split; [done|].
  destruct (count_matrix_shape_sum b data cfg) as (m & Hcm & _).
  unfold analyze_digraphs. rewrite Hcm. cbn [mbind result_bind]. by eexists.
Qed.

(** X8. The matrix is always 16 by 16, before and after scaling; before
    scaling no cell is negative or larger than the number of windows, and the
    cells add up to at most the number of windows, whatever is filtered. *)
Theorem count_matrix_shape_and_bounds (data : list byte) (cfg : config F) :
  data <> [] ->
  exists (m : list (list Z)) (counts : gmap (string * string) Z),
    count_matrix data cfg = Ok (m, counts) /\
    shape 16 16 m /\
    shape 16 16 (apply_log_scale (log_scale cfg) m) /\
    0 <= matrix_sum m <= 2 * Z.of_nat (length data) - 1 /\
    forall (i j : nat) (v : Z), cell m i j = Some v ->
      0 <= v <= 2 * Z.of_nat (length data) - 1.
Proof.
  intros Hdata. destruct data as [|b data]; [done|].
  destruct (count_matrix_shape_sum b data cfg) as (m & Hcm & Hm & Hsum).
  destruct (count_matrix_cons b data cfg) as (m' & Hcm' & Hcell).
  rewrite Hcm in Hcm'. injection Hcm' as <-.
  pose proof (length_digraphs_of (b :: data)) as Hlen. cbn [length] in Hlen.
  exists m, (Counter (digraphs_of (b :: data))).
  split; [done|]. split; [done|]. split.
  { unfold apply_log_scale. destruct (_ && _); by apply shape_matrix_map. }
  split; [cbn [length]; lia|].
  intros i j v Hv. destruct (cell_Some_lt _ _ _ _ _ _ Hm Hv) as [Hi Hj].
  rewrite (Hcell i j Hi Hj) in Hv. injection Hv as <-.
  destruct (Counter _ !! _) as [c|] eqn:Hc; [|cbn [length]; lia].
  destruct (Counter_entry_bounds _ _ _ Hc) as [Hlo Hhi].
  destruct (kept _ _ _ c); cbn [length] in *; lia.
Qed.

Lemma count_matrix_ext (data : list byte) (cfg1 cfg2 : config F) :
  (forall d, excluded (exclude_digraphs cfg1) d = excluded (exclude_digraphs cfg2) d) ->
  (forall c, 0 < c ->
     below_threshold (min_threshold cfg1) c = below_threshold (min_threshold cfg2) c) ->
  count_matrix data cfg1 = count_matrix data cfg2.
Proof.
  intros Hex Hthr. unfold count_matrix.
  destruct (count_digraphs data) as [counts|e] eqn:Hcount; cbn [mbind result_bind]; [|done].
  unfold fill_matrix.
  rewrite (fill_items_ext (exclude_digraphs cfg1) (exclude_digraphs cfg2)
             (min_threshold cfg1) (min_threshold cfg2)); [done|done|].
  apply Forall_forall. intros [d c] Hin. apply elem_of_map_to_list in Hin.
  cbn [snd]. apply Hthr.
  destruct data as [|b data]; [done|].
  rewrite count_digraphs_cons in Hcount. injection Hcount as <-.
  by apply (Counter_positive _ _ _ Hin).
Qed.

(** X9. Only membership in [exclude_digraphs] matters: two lists with the
    same members, in any order and with any repetitions, give the same grid
    and the same mapping. *)
Theorem exclusion_depends_on_membership (data : list byte) (ls : bool)
    (ex1 ex2 : list (string * string)) (vm : option F) (thr : option Z)
    (plt : list (plot_call F)) :
  (forall d, d ∈ ex1 <-> d ∈ ex2) ->
  returned (analyze_digraphs data (Config ls (Some ex1) vm thr) plt) =
  returned (analyze_digraphs data (Config ls (Some ex2) vm thr) plt).
Proof.
  intros Hmem. rewrite !returned_analyze.
  rewrite (count_matrix_ext data (Config ls (Some ex1) vm thr)
             (Config ls (Some ex2) vm thr)); [done| |done].
  intros d. cbn [exclude_digraphs].
  destruct (excluded (Some ex1) d) eqn:H1; destruct (excluded (Some ex2) d) eqn:H2;
    try done.
  - apply excluded_true in H1. cbn in H1. apply Hmem in H1.
    apply (proj2 (excluded_true (Some ex2) d)) in H1. congruence.
  - apply excluded_true in H2. cbn in H2. apply Hmem in H2.
    apply (proj2 (excluded_true (Some ex1) d)) in H2. congruence.
Qed.

(** X10. Raising the threshold only clears cells: with a larger threshold a
    cell before scaling is either what it is with the smaller one, or [0]. *)
Theorem threshold_monotone (data : list byte) (ls : bool)
    (ex : option (list (string * string))) (vm : option F) (t1 t2 : Z) :
  data <> [] -> t1 <= t2 ->
  exists (m1 m2 : list (list Z)) (counts : gmap (string * string) Z),
    count_matrix data (Config ls ex vm (Some t1)) = Ok (m1, counts) /\
    count_matrix data (Config ls ex vm (Some t2)) = Ok (m2, counts) /\
    forall i j : nat, (i < 16)%nat -> (j < 16)%nat ->
      exists v1 v2 : Z, cell m1 i j = Some v1 /\ cell m2 i j = Some v2 /\
        (v2 = v1 \/ v2 = 0) /\ 0 <= v2 <= v1.
Proof.
  intros Hdata Ht. destruct data as [|b data]; [done|].
  destruct (count_matrix_cons b data (Config ls ex vm (Some t1))) as (m1 & Hcm1 & Hcell1).
  destruct (count_matrix_cons b data (Config ls ex vm (Some t2))) as (m2 & Hcm2 & Hcell2).
  exists m1, m2, (Counter (digraphs_of (b :: data))).
  split; [done|]. split; [done|]. intros i j Hi Hj.
  eexists _, _. split; [by apply Hcell1|]. split; [by apply Hcell2|].
  cbn [exclude_digraphs min_threshold].
  destruct (Counter _ !! _) as [c|] eqn:Hc; [|by split; [left|]].
  pose proof (Counter_positive _ _ _ Hc) as Hpos. unfold kept.
  destruct (excluded ex _); cbn [negb andb]; [by split; [left|]|].
  destruct (below_threshold (Some t2) c) eqn:H2; cbn [negb].
  - split; [by right|]. destruct (below_threshold (Some t1) c); cbn [negb]; lia.
  - assert (below_threshold (Some t1) c = false) as ->.
    { destruct (below_threshold (Some t1) c) eqn:H1; [|done].
      apply (below_threshold_positive _ _ Hpos) in H1 as (t & [= <-] & Hlt).
      rewrite below_threshold_lt in H2; [done|done|lia]. }
    cbn [negb]. split; [by left|lia].
Qed.

(** X11. A threshold of [0] and an empty exclusion list are the same as
    none, for the pair returned and for every call on the plotting context,
    the title included. *)
Theorem falsy_options_same_as_none (data : list byte) (ls : bool)
    (ex : option (list (string * string))) (vm : option F) (thr : option Z)
    (plt : list (plot_call F)) :
  analyze_digraphs data (Config ls ex vm (Some 0)) plt =
    analyze_digraphs data (Config ls ex vm None) plt /\
  analyze_digraphs data (Config ls (Some []) vm thr) plt =
    analyze_digraphs data (Config ls None vm thr) plt.
Proof.
  split; unfold analyze_digraphs.
  - by rewrite (count_matrix_ext data (Config ls ex vm (Some 0)) (Config ls ex vm None)).
  - by rewrite (count_matrix_ext data (Config ls (Some []) vm thr) (Config ls None vm thr)).
Qed.

(** ** Rendering *)

Lemma elem_of_concat {A : Type} (x : A) (ls : list (list A)) :
  x ∈ concat ls <-> exists l, x ∈ l /\ l ∈ ls.
Proof.
  induction ls as [|l0 ls IH]; cbn [concat].
  - split; [by intros ?%elem_of_nil|by intros (? & _ & ?%elem_of_nil)].
  - rewrite elem_of_app, IH. split.
    + intros [Hx|(l & Hx & Hl)]; [exists l0|exists l]; (split; [done|]).
      * by apply elem_of_cons; left.
      * by apply elem_of_cons; right.
    + intros (l & Hx & [->|Hl]%elem_of_cons); [by left|right; by exists l].
Qed.

Lemma elem_of_annotations (ls : bool) (m : matrix F) (c : plot_call F) :
  c ∈ annotations ls m <->
  exists i j : nat, (i < 16)%nat /\ (j < 16)%nat /\ c ∈ annotate ls m i j.
Proof.
  unfold annotations. rewrite elem_of_concat. split.
  - intros (l & Hc & Hl). apply list_elem_of_fmap in Hl as (i & -> & Hi).
    apply elem_of_concat in Hc as (l & Hc & Hl).
    apply list_elem_of_fmap in Hl as (j & -> & Hj).
    apply elem_of_seq in Hi, Hj. exists i, j. repeat split; [lia|lia|done].
  - intros (i & j & Hi & Hj & Hc).
    exists (concat ((fun j => annotate ls m i j) <$> seq 0 16)). split.
    + apply elem_of_concat. exists (annotate ls m i j). split; [exact Hc|].
      apply list_elem_of_fmap. exists j. split; [done|]. apply elem_of_seq. lia.
    + apply list_elem_of_fmap. exists i. split; [done|]. apply elem_of_seq. lia.
Qed.

Lemma annotate_exact (bound : Z) (m : matrix Z) (i j : nat) (v : Z) :
  exact_up_to bound -> 0 <= v <= bound -> cell m i j = Some v ->
  annotate false (matrix_map of_int m) i j =
    if 0 <? v
    then [text j i (pretty v) "center" "center"
               (if fgt (of_int v) (fhalf (fmatrix_max (matrix_map of_int m)))
                then "white" else "black") 8]
    else [].
Proof.
  intros Hexact Hv Hc. destruct (Hexact v Hv) as [Hto Hgt].
  unfold annotate, annotation_value. rewrite cell_matrix_map, Hc. cbn [fmap option_fmap option_map].
  by rewrite Hgt, Hto.
Qed.

(** The cells before scaling, with their bounds. *)
Lemma count_matrix_cells_bounded (b : byte) (data : list byte) (cfg : config F) :
  exists m,
    count_matrix (b :: data) cfg = Ok (m, Counter (digraphs_of (b :: data))) /\
    forall i j, (i < 16)%nat -> (j < 16)%nat ->
      exists v, cell m i j = Some v /\
        0 <= v <= 2 * Z.of_nat (length (b :: data)) - 1 /\
        (0 < v ->
         Counter (digraphs_of (b :: data)) !! (hex_digit i, hex_digit j) = Some v /\
         kept (exclude_digraphs cfg) (min_threshold cfg) (hex_digit i, hex_digit j) v = true) /\
        (forall c,
           Counter (digraphs_of (b :: data)) !! (hex_digit i, hex_digit j) = Some c ->
           kept (exclude_digraphs cfg) (min_threshold cfg) (hex_digit i, hex_digit j) c = true ->
           v = c).
Proof.
  destruct (count_matrix_cons b data cfg) as (m & Hcm & Hcell).
  pose proof (length_digraphs_of (b :: data)) as Hlen.
  exists m. split; [done|]. intros i j Hi Hj.
  eexists. split; [by apply Hcell|].
  destruct (Counter _ !! _) as [c|] eqn:Hc;
    [|cbn [length] in *; split; [lia|split; [lia|done]]].
  destruct (Counter_entry_bounds _ _ _ Hc) as [Hlo Hhi].
  destruct (kept _ _ _ c) eqn:Hk; cbn [length] in *.
  - split; [lia|]. split; [done|]. intros c' [= <-] _. done.
  - split; [lia|]. split; [lia|]. intros c' [= <-] Hk'. congruence.
Qed.

(** X12. No label is drawn on a filtered cell. Where [0.0 > 0.0] is false,
    as it is in float64, every text label of the figure sits at the column and
    row of a digraph that occurs in the input, is not in [exclude_digraphs],
    and has a count that is not below [min_threshold], with [log_scale] on or
    off. *)
Theorem labels_only_on_kept_digraphs (data : list byte) (cfg : config F)
    (plt : list (plot_call F)) :
  exact_up_to 0 -> data <> [] ->
  exists grid : list (list F),
    analyze_digraphs data cfg plt =
      Ok ((grid, Counter (digraphs_of data)), plt ++ render cfg grid) /\
    forall (x y : nat) (s ha va color : string) (fontsize : Z),
      text x y s ha va color fontsize ∈ render cfg grid ->
      (x < 16)%nat /\ (y < 16)%nat /\
      exists c : Z,
        Counter (digraphs_of data) !! (hex_digit y, hex_digit x) = Some c /\
        ((hex_digit y, hex_digit x) ∉ default [] (exclude_digraphs cfg)) /\
        forall t, min_threshold cfg = Some t -> t <= c.
Proof.
  intros Hexact Hdata. destruct data as [|b data]; [done|].
  destruct (count_matrix_cells_bounded b data cfg) as (m & Hcm & Hcell).
  exists (apply_log_scale (log_scale cfg) m). split.
  { unfold analyze_digraphs. by rewrite Hcm. }
  intros x y s ha va color fontsize Hin.
  unfold render in Hin. apply elem_of_app in Hin as [Hin|Hin].
  { repeat (apply elem_of_cons in Hin as [Hin|Hin]; [discriminate Hin|]).
    by apply elem_of_nil in Hin. }
  apply elem_of_annotations in Hin as (i & j & Hi & Hj & Hin).
  destruct (Hcell i j Hi Hj) as (v & Hv & Hb & Hpos & _).
  unfold annotate in Hin.
  destruct (cell (apply_log_scale (log_scale cfg) m) i j) as [g|] eqn:Hg;
    [|by apply elem_of_nil in Hin].
  destruct (fgt g (of_int 0)) eqn:Hgt; [|by apply elem_of_nil in Hin].
  apply list_elem_of_singleton in Hin. injection Hin as -> -> _ _ _ _ _.
  assert (0 < v) as Hv0.
  { destruct (decide (v = 0)) as [->|Hne]; [|lia].
    rewrite (apply_log_scale_zero _ _ _ _ Hv) in Hg. injection Hg as <-.
    destruct (Hexact 0) as [_ H0]; [lia|]. rewrite H0 in Hgt. done. }
  destruct (Hpos Hv0) as [Hc Hkept].
  split; [done|]. split; [done|]. exists v. split; [done|].
  unfold kept in Hkept. apply andb_true_iff in Hkept as [Hex Hthr].
  apply negb_true_iff in Hex, Hthr. split.
  - intros Hmem. apply excluded_true in Hmem. congruence.
  - intros t Ht. destruct (decide (t <= v)) as [|Hlt]; [done|].
    rewrite Ht, below_threshold_lt in Hthr; [done|done|lia].
Qed.

(** X13. With [log_scale] off, and on inputs short enough for float64 to
    hold every count exactly, a cell is labelled if and only if its value
    before scaling is positive, and the label is that value in decimal. *)
Theorem labels_without_log_scale (data : list byte) (cfg : config F) (bound : Z) :
  exact_up_to bound -> 2 * Z.of_nat (length data) - 1 <= bound ->
  data <> [] -> log_scale cfg = false ->
  exists (m : list (list Z)) (counts : gmap (string * string) Z),
    count_matrix data cfg = Ok (m, counts) /\
    (forall plt, analyze_digraphs data cfg plt =
       Ok ((matrix_map of_int m, counts), plt ++ render cfg (matrix_map of_int m))) /\
    forall i j : nat, (i < 16)%nat -> (j < 16)%nat ->
      exists v : Z, cell m i j = Some v /\
        annotate false (matrix_map of_int m) i j =
          if 0 <? v
          then [text j i (pretty v) "center" "center"
                     (if fgt (of_int v) (fhalf (fmatrix_max (matrix_map of_int m)))
                      then "white" else "black") 8]
          else [].
Proof.
  intros Hexact Hbound Hdata Hls. destruct data as [|b data]; [done|].
  destruct (count_matrix_cells_bounded b data cfg) as (m & Hcm & Hcell).
  exists m, (Counter (digraphs_of (b :: data))). split; [done|]. split.
  - intros plt. unfold analyze_digraphs. rewrite Hcm. cbn [mbind result_bind].
    by rewrite Hls.
  - intros i j Hi Hj. destruct (Hcell i j Hi Hj) as (v & Hv & Hb & _).
    exists v. split; [done|]. apply (annotate_exact bound); [done|lia|done].
Qed.

(** ** The script *)

(** X14. The script ends with [IndexError] without an argument, with
    [OSError] when the file cannot be read and with [ValueError] when the file
    is empty; on any other file it completes: the calls already made stay,
    those of the analysis follow, and at the end the title is replaced by the
    path and the fixed subtitle, the layout tightened and the figure shown. *)
Theorem main_outcome (argv : list string) (fs : string -> option (list byte))
    (plt : list (pyplot_call F)) :
  match argv !! 1%nat with
  | None => main argv fs plt = Uncaught IndexError
  | Some path =>
      match fs path with
      | None => main argv fs plt = UncaughtOSError
      | Some [] => main argv fs plt = Uncaught ValueError
      | Some (b :: data) =>
          exists m : list (list Z),
            count_matrix (b :: data) (script_config (F := F)) =
              Ok (m, Counter (digraphs_of (b :: data))) /\
            main argv fs plt =
              Completed (plt ++ (drawn <$> render script_config (matrix_map of_int m))
                             ++ [drawn (title (script_title path)); tight_layout; show])
      end
  end.
Proof.
  unfold main. destruct (argv !! 1%nat) as [path|]; [|done].
  destruct (fs path) as [[|b data]|]; [done| |done].
  destruct (count_matrix_cons b data (script_config (F := F))) as (m & Hcm & _).
  exists m. split; [done|]. unfold analyze_digraphs. by rewrite Hcm.
Qed.

(** X15. In the figure of the script, on inputs short enough for float64 to
    hold every count exactly, every label shows the count of the digraph of
    its row and column; that count is at least [5], and the digraph is never
    [('0', '0')]. In the other direction, every digraph other than
    [('0', '0')] with a count of at least [5] has its label. *)
Theorem script_labels (argv : list string) (fs : string -> option (list byte))
    (plt : list (pyplot_call F)) (path : string) (data : list byte) (bound : Z) :
  exact_up_to bound -> 2 * Z.of_nat (length data) - 1 <= bound ->
  argv !! 1%nat = Some path -> fs path = Some data -> data <> [] ->
  exists calls : list (plot_call F),
    main argv fs plt =
      Completed (plt ++ (drawn <$> calls)
                     ++ [drawn (title (script_title path)); tight_layout; show]) /\
    (forall (x y : nat) (s ha va color : string) (fontsize : Z),
       text x y s ha va color fontsize ∈ calls ->
       exists c : Z,
         Counter (digraphs_of data) !! (hex_digit y, hex_digit x) = Some c /\
         s = pretty c /\ 5 <= c /\ (hex_digit y, hex_digit x) <> ("0", "0")) /\
    (forall (i j : nat) (c : Z), (i < 16)%nat -> (j < 16)%nat ->
       Counter (digraphs_of data) !! (hex_digit i, hex_digit j) = Some c ->
       5 <= c -> (hex_digit i, hex_digit j) <> ("0", "0") ->
       exists color : string,
         text j i (pretty c) "center" "center" color 8 ∈ calls).
Proof.
  intros Hexact Hbound Hargv Hfs Hdata. destruct data as [|b data]; [done|].
  destruct (count_matrix_cells_bounded b data (script_config (F := F)))
    as (m & Hcm & Hcell).
  exists (render script_config (matrix_map of_int m)). split.
  { unfold main. rewrite Hargv, Hfs. unfold analyze_digraphs. by rewrite Hcm. }
  split.
  - intros x y s ha va color fontsize Hin.
    unfold render in Hin. apply elem_of_app in Hin as [Hin|Hin].
    { repeat (apply elem_of_cons in Hin as [Hin|Hin]; [discriminate Hin|]).
      by apply elem_of_nil in Hin. }
    apply elem_of_annotations in Hin as (i & j & Hi & Hj & Hin).
    destruct (Hcell i j Hi Hj) as (v & Hv & Hb & Hpos & _).
    cbn [log_scale script_config] in Hin.
    rewrite (annotate_exact bound m i j v Hexact) in Hin; [|lia|done].
    destruct (0 <? v) eqn:Hv0; [|by apply elem_of_nil in Hin].
    apply list_elem_of_singleton in Hin. injection Hin as -> -> -> _ _ _ _.
    apply Z.ltb_lt in Hv0. destruct (Hpos Hv0) as [Hc Hkept].
    exists v. split; [done|]. split; [done|].
    unfold kept in Hkept. apply andb_true_iff in Hkept as [Hex Hthr].
    apply negb_true_iff in Hex, Hthr.
    cbn [exclude_digraphs min_threshold script_config] in *.
    split.
    + unfold below_threshold in Hthr. cbn in Hthr. apply Z.ltb_ge in Hthr. lia.
    + intros Heq. rewrite Heq in Hex. done.
  - intros i j c Hi Hj Hc Hc5 Hne.
    destruct (Hcell i j Hi Hj) as (v & Hv & Hb & _ & Hconv).
    assert (v = c) as ->.
    { apply Hconv; [done|]. cbn [exclude_digraphs min_threshold script_config].
      rewrite kept_not_excluded, below_threshold_ge; [done|done|].
      cbn. intros [Heq|Hnil]%elem_of_cons; [done|by apply elem_of_nil in Hnil]. }
    eexists. unfold render. apply elem_of_app. right.
    apply elem_of_annotations. exists i, j. split; [done|]. split; [done|].
    cbn [log_scale script_config].
    rewrite (annotate_exact bound m i j c Hexact); [|lia|done].
    rewrite (proj2 (Z.ltb_lt 0 c)) by lia. by apply list_elem_of_singleton.
Qed.

End further_analysis_properties.

Lemma real_exact_up_to (bound : Z) : exact_up_to (F := R) bound.
Proof.
  intros z [Hz _]. assert (0 <= IZR z)%R as Hz' by (by apply IZR_le). split.
  - cbn. unfold Rtrunc. destruct (Rle_dec 0 (IZR z)) as [_|Hn]; [|done].
    symmetry. apply Int_part_spec. lra.
  - cbn. destruct (Rgt_dec (IZR z) 0) as [Hgt|Hngt]; symmetry.
    + apply Z.ltb_lt, lt_IZR. lra.
    + apply Z.ltb_ge, le_IZR. lra.
Qed.

(** ** The further properties at concrete inputs *)

Lemma hex_string_injective_witness :
  hex_string ([xab] ++ [x00]) = hex_string [xab; x00] /\ [xab] ++ [x00] = [xab; x00].
Proof.
  split; [reflexivity|].
  apply (hex_string_injective ([xab] ++ [x00]) [xab; x00]). reflexivity.
Defined.

Lemma sliding_window_view_spec_witness :
  (2 <= length ["A"; "B"; "0"])%nat /\
  exists ws, sliding_window_view ["A"; "B"; "0"] = Ok ws /\
    length ws = (length ["A"; "B"; "0"] - 1)%nat /\
    forall (k : nat) (a b : string),
      ws !! k = Some (a, b) <->
      ["A"; "B"; "0"] !! k = Some a /\ ["A"; "B"; "0"] !! S k = Some b.
Proof.
  split; [cbn; lia|].
  apply (proj2 (sliding_window_view_spec ["A"; "B"; "0"])). cbn. lia.
Defined.

Lemma Counter_permutation_witness :
  [("A", "B"); ("B", "A")] ≡ₚ [("B", "A"); ("A", "B")] /\
  Counter [("A", "B"); ("B", "A")] = Counter [("B", "A"); ("A", "B")].
Proof.
  split; [apply perm_swap|].
  apply (Counter_permutation [("A", "B"); ("B", "A")] [("B", "A"); ("A", "B")]).
  apply perm_swap.
Defined.

Lemma count_matrix_shape_and_bounds_witness :
  [xab; xab] <> [] /\
  exists (m : list (list Z)) (counts : gmap (string * string) Z),
    count_matrix [xab; xab] (Config true None (None : option R) (Some 2))
      = Ok (m, counts) /\
    shape 16 16 m /\
    shape 16 16 (apply_log_scale (F := R) true m) /\
    0 <= matrix_sum m <= 2 * Z.of_nat (length [xab; xab]) - 1 /\
    forall (i j : nat) (v : Z), cell m i j = Some v ->
      0 <= v <= 2 * Z.of_nat (length [xab; xab]) - 1.
Proof.
  split; [discriminate|].
  apply (count_matrix_shape_and_bounds [xab; xab]
           (Config true None (None : option R) (Some 2))).
  discriminate.
Defined.

Lemma exclusion_depends_on_membership_witness :
  (forall d : string * string,
     d ∈ [("A", "B"); ("0", "0")] <-> d ∈ [("0", "0"); ("A", "B"); ("0", "0")]) /\
  returned (analyze_digraphs [xab; x00]
              (Config true (Some [("A", "B"); ("0", "0")]) (None : option R) None) []) =
  returned (analyze_digraphs [xab; x00]
              (Config true (Some [("0", "0"); ("A", "B"); ("0", "0")])
                 (None : option R) None) []).
Proof.
  assert (forall d : string * string,
     d ∈ [("A", "B"); ("0", "0")] <-> d ∈ [("0", "0"); ("A", "B"); ("0", "0")]) as Hmem.
  { intros d. rewrite !elem_of_cons. tauto. }
  split; [exact Hmem|].
  apply (exclusion_depends_on_membership [xab; x00] true
           [("A", "B"); ("0", "0")] [("0", "0"); ("A", "B"); ("0", "0")] None None []).
  exact Hmem.
Defined.

Lemma threshold_monotone_witness :
  [xab; xab] <> [] /\ 1 <= 3 /\
  exists (m1 m2 : list (list Z)) (counts : gmap (string * string) Z),
    count_matrix [xab; xab] (Config true None (None : option R) (Some 1))
      = Ok (m1, counts) /\
    count_matrix [xab; xab] (Config true None (None : option R) (Some 3))
      = Ok (m2, counts) /\
    forall i j : nat, (i < 16)%nat -> (j < 16)%nat ->
      exists v1 v2 : Z, cell m1 i j = Some v1 /\ cell m2 i j = Some v2 /\
        (v2 = v1 \/ v2 = 0) /\ 0 <= v2 <= v1.
Proof.
  split; [discriminate|]. split; [lia|].
  apply (threshold_monotone [xab; xab] true None (None : option R) 1 3);
    [discriminate|lia].
Defined.

Lemma labels_without_log_scale_witness :
  exact_up_to (F := R) (2 ^ 53) /\
  2 * Z.of_nat (length [xab; xab]) - 1 <= 2 ^ 53 /\
  [xab; xab] <> [] /\ false = false /\
  exists (m : list (list Z)) (counts : gmap (string * string) Z),
    count_matrix [xab; xab] (Config false None (None : option R) None)
      = Ok (m, counts) /\
    (forall plt,
       analyze_digraphs [xab; xab] (Config false None (None : option R) None) plt =
         Ok ((matrix_map IZR m, counts),
             plt ++ render (Config false None None None) (matrix_map IZR m))) /\
    forall i j : nat, (i < 16)%nat -> (j < 16)%nat ->
      exists v : Z, cell m i j = Some v /\
        annotate false (matrix_map IZR m) i j =
          if 0 <? v
          then [text j i (pretty v) "center" "center"
                     (if fgt (IZR v) (fhalf (fmatrix_max (matrix_map IZR m)))
                      then "white" else "black") 8]
          else [].
Proof.
  split; [apply real_exact_up_to|]. split; [cbn; lia|].
  split; [discriminate|]. split; [reflexivity|].
  refine (labels_without_log_scale [xab; xab]
            (Config false None (None : option R) None) (2 ^ 53)
            (real_exact_up_to _) _ _ _);
    [cbn; lia|discriminate|reflexivity].
Defined.

Lemma script_labels_witness :
  exact_up_to (F := R) (2 ^ 53) /\
  2 * Z.of_nat (length [x00; x00; x00; x00; x12; x12; x12; x12; x12; x12]) - 1
    <= 2 ^ 53 /\
  ["dust.py"; "data.bin"] !! 1%nat = Some "data.bin" /\
  (fun _ : string => Some [x00; x00; x00; x00; x12; x12; x12; x12; x12; x12])
    "data.bin" = Some [x00; x00; x00; x00; x12; x12; x12; x12; x12; x12] /\
  [x00; x00; x00; x00; x12; x12; x12; x12; x12; x12] <> [] /\
  exists calls : list (plot_call R),
    main ["dust.py"; "data.bin"]
      (fun _ => Some [x00; x00; x00; x00; x12; x12; x12; x12; x12; x12]) [] =
      Completed ([] ++ (drawn <$> calls)
                    ++ [drawn (title (script_title "data.bin")); tight_layout; show]) /\
    (forall (x y : nat) (s ha va color : string) (fontsize : Z),
       text x y s ha va color fontsize ∈ calls ->
       exists c : Z,
         Counter (digraphs_of [x00; x00; x00; x00; x12; x12; x12; x12; x12; x12])
           !! (hex_digit y, hex_digit x) = Some c /\
         s = pretty c /\ 5 <= c /\ (hex_digit y, hex_digit x) <> ("0", "0")) /\
    (forall (i j : nat) (c : Z), (i < 16)%nat -> (j < 16)%nat ->
       Counter (digraphs_of [x00; x00; x00; x00; x12; x12; x12; x12; x12; x12])
         !! (hex_digit i, hex_digit j) = Some c ->
       5 <= c -> (hex_digit i, hex_digit j) <> ("0", "0") ->
       exists color : string,
         text j i (pretty c) "center" "center" color 8 ∈ calls) /\
    (exists color : string, text 2 1 "6" "center" "center" color 8 ∈ calls) /\
    (exists color : string, text 1 2 "5" "center" "center" color 8 ∈ calls).
Proof.
  split; [apply real_exact_up_to|]. split; [cbn; lia|].
  split; [reflexivity|]. split; [reflexivity|]. split; [discriminate|].
  destruct (script_labels (F := R) ["dust.py"; "data.bin"]
              (fun _ => Some [x00; x00; x00; x00; x12; x12; x12; x12; x12; x12]) []
              "data.bin" [x00; x00; x00; x00; x12; x12; x12; x12; x12; x12] (2 ^ 53)
              (real_exact_up_to _))
    as (calls & Hmain & Hlabels & Hall);
    [cbn; lia|reflexivity|reflexivity|discriminate|].
  exists calls. split; [exact Hmain|]. split; [exact Hlabels|]. split; [exact Hall|].
  split.
  - apply (Hall 1%nat 2%nat 6); [lia|lia|reflexivity|lia|discriminate].
  - apply (Hall 2%nat 1%nat 5); [lia|lia|reflexivity|lia|discriminate].
Defined.

Lemma labels_only_on_kept_digraphs_witness :
  exact_up_to (F := R) 0 /\ [xab; xab] <> [] /\
  exists grid : list (list R),
    analyze_digraphs [xab; xab] (Config false None (None : option R) (Some 2)) [] =
      Ok ((grid, Counter (digraphs_of [xab; xab])),
          [] ++ render (Config false None None (Some 2)) grid) /\
    (forall (x y : nat) (s ha va color : string) (fontsize : Z),
       text x y s ha va color fontsize ∈ render (Config false None None (Some 2)) grid ->
       (x < 16)%nat /\ (y < 16)%nat /\
       exists c : Z,
         Counter (digraphs_of [xab; xab]) !! (hex_digit y, hex_digit x) = Some c /\
         ((hex_digit y, hex_digit x) ∉ []) /\
         forall t, Some 2 = Some t -> t <= c) /\
    exists color : string,
      text 11 10 "2" "center" "center" color 8 ∈
        render (Config false None None (Some 2)) grid.
Proof.
  split; [apply real_exact_up_to|]. split; [discriminate|].
  destruct (labels_only_on_kept_digraphs (F := R) [xab; xab]
              (Config false None None (Some 2)) [] (real_exact_up_to 0))
    as (grid & Hrun & Hlabels); [discriminate|].
  exists grid. split; [exact Hrun|]. split; [exact Hlabels|].
  assert (grid = matrix_map IZR
            (<[10%nat := <[11%nat := 2]> (replicate 16 0)]> (zeros 16 16))) as ->.
  { assert (analyze_digraphs [xab; xab]
              (Config false None (None : option R) (Some 2)) [] =
            Ok ((matrix_map IZR
                   (<[10%nat := <[11%nat := 2]> (replicate 16 0)]> (zeros 16 16)),
                 Counter (digraphs_of [xab; xab])),
                [] ++ render (Config false None None (Some 2))
                        (matrix_map IZR
                           (<[10%nat := <[11%nat := 2]> (replicate 16 0)]>
                              (zeros 16 16))))) as Hrun' by reflexivity.
    rewrite Hrun in Hrun'. by injection Hrun' as -> _. }
  eexists. unfold render. apply elem_of_app. right.
  apply (elem_of_annotations_2 false _ 10 11); [lia|lia|].
  rewrite (annotate_exact 2 _ 10 11 2 (real_exact_up_to 2)); [|lia|reflexivity].
  apply list_elem_of_singleton. reflexivity.
Defined.

(** ** Digraphs within a byte and across bytes *)

Lemma nibbles_lookup (data : list byte) (k : nat) (b : byte) :
  data !! k = Some b ->
  nibbles data !! (2 * k)%nat = Some (high_nibble b) /\
  nibbles data !! S (2 * k) = Some (low_nibble b).
Proof.
  unfold nibbles. revert k. induction data as [|b0 data IH]; intros k Hk; [done|].
  rewrite bind_cons. destruct k as [|k].
  - injection Hk as ->. by split.
  - cbn in Hk. replace (2 * S k)%nat with (S (S (2 * k))) by lia.
    cbn. by apply IH.
Qed.

Lemma digraphs_of_lookup (data : list byte) (n : nat) (i j : nat) :
  nibbles data !! n = Some i -> nibbles data !! S n = Some j ->
  digraphs_of data !! n = Some (hex_digit i, hex_digit j).
Proof.
  intros Hi Hj. unfold digraphs_of. rewrite chars_hex_string.
  apply windows_lookup. by rewrite !list_lookup_fmap, Hi, Hj.
Qed.

(** X16. The windows alternate: window [2 * k] is the two digits of byte
    [k], high nibble first, and window [2 * k + 1] is the low digit of byte
    [k] followed by the high digit of byte [k + 1]. *)
Theorem digraphs_within_and_across_bytes (data : list byte) (k : nat) (b : byte) :
  data !! k = Some b ->
  digraphs_of data !! (2 * k)%nat
    = Some (hex_digit (high_nibble b), hex_digit (low_nibble b)) /\
  forall b' : byte, data !! S k = Some b' ->
    digraphs_of data !! (2 * k + 1)%nat
      = Some (hex_digit (low_nibble b), hex_digit (high_nibble b')).
Proof.
  intros Hk. destruct (nibbles_lookup data k b Hk) as [Hhi Hlo]. split.
  - by apply digraphs_of_lookup.
  - intros b' Hk'. destruct (nibbles_lookup data (S k) b' Hk') as [Hhi' _].
    replace (2 * k + 1)%nat with (S (2 * k)) by lia.
    apply digraphs_of_lookup; [done|].
    by replace (S (S (2 * k))) with (2 * S k)%nat by lia.
Qed.

Lemma digraphs_within_and_across_bytes_witness :
  [xab; x0f] !! 0%nat = Some xab /\
  digraphs_of [xab; x0f] !! (2 * 0)%nat
    = Some (hex_digit (high_nibble xab), hex_digit (low_nibble xab)) /\
  forall b' : byte, [xab; x0f] !! 1%nat = Some b' ->
    digraphs_of [xab; x0f] !! (2 * 0 + 1)%nat
      = Some (hex_digit (low_nibble xab), hex_digit (high_nibble b')).
Proof.
  split; [reflexivity|].
  apply (digraphs_within_and_across_bytes [xab; x0f] 0 xab). reflexivity.
Defined.

(** ** A single byte *)

Section single_byte.
Context {F : Type} `{Float64 F}.

(** X17. For an input of one byte, whatever the byte, the mapping has the
    single entry of its two digits with count [1]; without filters the cell
    in the row of the high nibble and the column of the low nibble is [1] and
    every other cell is [0]. *)
Theorem single_byte_grid (b : byte) (ls : bool) (vm : option F) :
  exists m : list (list Z),
    count_matrix [b] (Config ls None vm None) =
      Ok (m, {[ (hex_digit (high_nibble b), hex_digit (low_nibble b)) := 1 ]}) /\
    cell m (high_nibble b) (low_nibble b) = Some 1 /\
    forall i j : nat, (i < 16)%nat -> (j < 16)%nat ->
      (i, j) <> (high_nibble b, low_nibble b) -> cell m i j = Some 0.
Proof.
  destruct (count_matrix_cons b [] (Config ls None vm None)) as (m & Hcm & Hcell).
  assert (digraphs_of [b] = [(hex_digit (high_nibble b), hex_digit (low_nibble b))])
    as Hd by (destruct b; reflexivity).
  assert (Counter (digraphs_of [b]) =
          {[ (hex_digit (high_nibble b), hex_digit (low_nibble b)) := 1 ]}) as Hc.
  { rewrite Hd. unfold Counter. cbn [foldl]. unfold counter_incr.
    by rewrite lookup_empty, insert_empty. }
  rewrite Hc in Hcm, Hcell. exists m. split; [done|].
  pose proof (high_nibble_lt b) as Hhi. pose proof (low_nibble_lt b) as Hlo. split.
  - rewrite (Hcell _ _ Hhi Hlo), lookup_singleton_eq. reflexivity.
  - intros i j Hi Hj Hne. rewrite (Hcell i j Hi Hj), lookup_singleton_ne; [done|].
    intros [= Heq1 Heq2]. apply Hne.
    f_equal; symmetry; by apply hex_digit_inj.
Qed.

End single_byte.
